(** * Breath Bubbles: the canvas particle field of assets/js/breathbubbles.js

    A shallow embedding of the [BreathBubbles] class.  JavaScript numbers
    are read as real numbers (exact arithmetic, [sin], [sqrt] and [PI] of
    the Standard Library); the backing-store size of the canvas is an
    unsigned integer, as the DOM types it; [Math.random()] draws from an
    explicit supply threaded through the code; the calls made on the 2D
    context are recorded, in order, as a trace. *)

From Stdlib Require Import Reals Lra Lia ZArith List Bool.
Import ListNotations.
Local Open Scope R_scope.

(** ** Math.random() *)

(** The successive results of [Math.random()], each in [0, 1). *)
Definition Entropy := nat -> R.

Definition unit_interval (g : Entropy) : Prop :=
  forall n : nat, 0 <= g n < 1.

(** Code that calls [Math.random()] maps a supply to a result and the
    rest of the supply. *)
Definition Rand (A : Type) : Type := Entropy -> A * Entropy.

Definition ret {A : Type} (a : A) : Rand A := fun g => (a, g).

Definition bind {A B : Type} (m : Rand A) (k : A -> Rand B) : Rand B :=
  fun g => let (a, g') := m g in k a g'.

Notation "v <- m ;; k" := (bind m (fun v => k))
  (at level 61, m at next level, right associativity).

Definition Math_random : Rand R :=
  fun g => (g 0%nat, fun n => g (S n)).

Definition Math_hypot (a b : R) : R := sqrt (a * a + b * b).

(** ** Data *)

(** [this.options]; [bubbleCount] is a whole number. *)
Record Options := {
  bubbleCount : Z;
  baseHue : R;
  hueRange : R;
  minRadius : R;
  maxRadius : R;
  floatSpeed : R * R;
  wobbleStrength : R;
  breathingPeriod : R;
  connectionDistance : R;
  interactiveForce : R;
  parallax : R
}.

(** The literal of the constructor (lines 9-21). *)
Definition defaults : Options := {|
  bubbleCount := 42;
  baseHue := 190;
  hueRange := 40;
  minRadius := 14;
  maxRadius := 64;
  floatSpeed := (0.12, 0.55);
  wobbleStrength := 0.55;
  breathingPeriod := 6400;
  connectionDistance := 148;
  interactiveForce := 0.12;
  parallax := 0.06
|}.

(** The [options] argument: an object that may define any of the keys. *)
Record Overrides := {
  o_bubbleCount : option Z;
  o_baseHue : option R;
  o_hueRange : option R;
  o_minRadius : option R;
  o_maxRadius : option R;
  o_floatSpeed : option (R * R);
  o_wobbleStrength : option R;
  o_breathingPeriod : option R;
  o_connectionDistance : option R;
  o_interactiveForce : option R;
  o_parallax : option R
}.

(** [{}], the default value of the argument. *)
Definition no_overrides : Overrides :=
  Build_Overrides None None None None None None None None None None None.

Definition pick {A : Type} (o : option A) (d : A) : A :=
  match o with Some v => v | None => d end.

(** [Object.assign(target, source)]: the keys of [source] win. *)
Definition Object_assign (target : Options) (source : Overrides) : Options := {|
  bubbleCount := pick (o_bubbleCount source) (bubbleCount target);
  baseHue := pick (o_baseHue source) (baseHue target);
  hueRange := pick (o_hueRange source) (hueRange target);
  minRadius := pick (o_minRadius source) (minRadius target);
  maxRadius := pick (o_maxRadius source) (maxRadius target);
  floatSpeed := pick (o_floatSpeed source) (floatSpeed target);
  wobbleStrength := pick (o_wobbleStrength source) (wobbleStrength target);
  breathingPeriod := pick (o_breathingPeriod source) (breathingPeriod target);
  connectionDistance :=
    pick (o_connectionDistance source) (connectionDistance target);
  interactiveForce := pick (o_interactiveForce source) (interactiveForce target);
  parallax := pick (o_parallax source) (parallax target)
|}.

(** The backing store of the canvas element: [canvas.width] and
    [canvas.height] are unsigned integers. *)
Record Canvas := {
  width : N;
  height : N
}.

Definition canvas_width (c : Canvas) : R := IZR (Z.of_N (width c)).
Definition canvas_height (c : Canvas) : R := IZR (Z.of_N (height c)).

(** What [getBoundingClientRect()] answers, in CSS pixels. *)
Record DOMRect := {
  rect_left : R;
  rect_top : R;
  rect_width : R;
  rect_height : R
}.

Record Mouse := {
  mouse_x : R;
  mouse_y : R;
  mouse_active : bool
}.

Record Bubble := {
  x : R;
  y : R;
  r : R;
  baseR : R;
  hue : R;
  vy : R;
  vx : R;
  wobbleSeed : R
}.

Definition with_x (v : R) (b : Bubble) : Bubble :=
  Build_Bubble v (y b) (r b) (baseR b) (hue b) (vy b) (vx b) (wobbleSeed b).

Definition with_y (v : R) (b : Bubble) : Bubble :=
  Build_Bubble (x b) v (r b) (baseR b) (hue b) (vy b) (vx b) (wobbleSeed b).

Definition with_r (v : R) (b : Bubble) : Bubble :=
  Build_Bubble (x b) (y b) v (baseR b) (hue b) (vy b) (vx b) (wobbleSeed b).

(** The instance: [this]. *)
Record BreathBubbles := {
  canvas : Canvas;
  dpr : R;
  options : Options;
  bubbles : list Bubble;
  t0 : R;
  mouse : Mouse
}.

Definition with_bubbles (bs : list Bubble) (f : BreathBubbles) : BreathBubbles :=
  Build_BreathBubbles (canvas f) (dpr f) (options f) bs (t0 f) (mouse f).

Definition with_canvas (c : Canvas) (f : BreathBubbles) : BreathBubbles :=
  Build_BreathBubbles c (dpr f) (options f) (bubbles f) (t0 f) (mouse f).

Definition with_mouse (m : Mouse) (f : BreathBubbles) : BreathBubbles :=
  Build_BreathBubbles (canvas f) (dpr f) (options f) (bubbles f) (t0 f) m.

Definition with_t0 (t : R) (f : BreathBubbles) : BreathBubbles :=
  Build_BreathBubbles (canvas f) (dpr f) (options f) (bubbles f) t (mouse f).

(** ** Event handlers (bind, lines 35-47) and resize (lines 49-53) *)

(** Storing a number in [canvas.width] keeps its integer part.  This is
    the DOM's conversion for a product that is not negative and fits the
    32-bit attribute; outside that range the DOM wraps or falls back to
    its default size, which is not modelled: the properties below hold
    for whatever size the canvas has. *)
Definition to_unsigned (v : R) : N := Z.to_N (Int_part v).

Definition resize (rect : DOMRect) (f : BreathBubbles) : BreathBubbles :=
  with_canvas {| width := to_unsigned (rect_width rect * dpr f);
                 height := to_unsigned (rect_height rect * dpr f) |} f.

Definition on_pointermove (clientX clientY : R) (rect : DOMRect)
    (f : BreathBubbles) : BreathBubbles :=
  with_mouse {| mouse_x := (clientX - rect_left rect) * dpr f;
                mouse_y := (clientY - rect_top rect) * dpr f;
                mouse_active := true |} f.

Definition on_pointerleave (f : BreathBubbles) : BreathBubbles :=
  with_mouse {| mouse_x := mouse_x (mouse f);
                mouse_y := mouse_y (mouse f);
                mouse_active := false |} f.

Definition on_visibilitychange (visible : bool) (now : R)
    (f : BreathBubbles) : BreathBubbles :=
  if visible then with_t0 now f else f.

(** ** init and makeBubble (lines 55-76) *)

Definition rand (min max : R) : Rand R :=
  u <- Math_random ;; ret (u * (max - min) + min).

Definition makeBubble (c : Canvas) (o : Options) : Rand Bubble :=
  r0 <- rand (minRadius o) (maxRadius o) ;;
  ux <- Math_random ;;
  uy <- Math_random ;;
  h <- rand (- hueRange o / 2) (hueRange o / 2) ;;
  s <- rand (fst (floatSpeed o)) (snd (floatSpeed o)) ;;
  d <- rand (-0.15) 0.15 ;;
  w <- Math_random ;;
  ret {| x := ux * canvas_width c;
         y := uy * canvas_height c;
         r := r0;
         baseR := r0;
         hue := baseHue o + h;
         vy := - s;
         vx := d;
         wobbleSeed := w * 1000 |}.

(** The loop of [init]: [todo] pushes remain. *)
Fixpoint init_loop (c : Canvas) (o : Options) (todo : nat)
    (acc : list Bubble) : Rand (list Bubble) :=
  match todo with
  | O => ret acc
  | S todo' =>
      b <- makeBubble c o ;;
      init_loop c o todo' (acc ++ [b])
  end.

(** [i] runs over the integers from 0 while [i < bubbleCount]. *)
Definition init (f : BreathBubbles) : Rand BreathBubbles :=
  bs <- init_loop (canvas f) (options f)
          (Z.to_nat (bubbleCount (options f))) [] ;;
  ret (with_bubbles bs f).

(** ** The 2D context *)

(** [hsla(h, s%, l%, a)]. *)
Record Color := Hsla {
  hsla_h : R;
  hsla_s : R;
  hsla_l : R;
  hsla_a : R
}.

(** [createRadialGradient] and the stops added to its result. *)
Record Gradient := {
  g_x0 : R; g_y0 : R; g_r0 : R;
  g_x1 : R; g_y1 : R; g_r1 : R;
  g_stops : list (R * Color)
}.

(** The calls and assignments a frame makes on [this.ctx]. *)
Inductive Cmd : Type :=
| ClearRect (px py w h : R)
| LineWidth (w : R)
| StrokeStyle (c : Color)
| FillStyle (g : Gradient)
| BeginPath
| MoveTo (px py : R)
| LineTo (px py : R)
| Arc (px py radius a0 a1 : R)
| Stroke
| Fill.

(** The commands that paint a bubble's disc. *)
Definition paints_bubble (c : Cmd) : bool :=
  match c with
  | FillStyle _ | Arc _ _ _ _ _ | Fill => true
  | _ => false
  end.

(** ** frame (lines 78-155) *)

(** Line 83. *)
Definition breath_at (o : Options) (t : R) : R :=
  (sin ((t / breathingPeriod o) * PI * 2) + 1) / 2.

(** Lines 88-89. *)
Definition breathe (breath : R) (b : Bubble) : Bubble :=
  let scale := 0.82 + breath * 0.36 in
  with_r (baseR b * scale) b.

(** Lines 92-93. *)
Definition move (o : Options) (t breath : R) (b : Bubble) : Bubble :=
  let b1 := with_y (y b + vy b * (0.6 + breath * 0.8)) b in
  with_x (x b1 + (vx b1 + sin ((t + wobbleSeed b1) * 0.0018) * wobbleStrength o)) b1.

(** Lines 96-99. *)
Definition recycle (c : Canvas) (b : Bubble) : Rand Bubble :=
  if Rlt_dec (y b + r b) 0 then
    let b1 := with_y (canvas_height c + r b * 2) b in
    u <- Math_random ;;
    ret (with_x (u * canvas_width c) b1)
  else ret b.

(** Lines 100-101. *)
Definition wrap (c : Canvas) (b : Bubble) : Bubble :=
  if Rgt_dec (x b - r b) (canvas_width c) then with_x (- r b) b
  else if Rlt_dec (x b + r b) 0 then with_x (canvas_width c + r b) b
  else b.

(** Line 109. *)
Definition force_at (f : BreathBubbles) (dist : R) : R :=
  (1 - dist / (180 * dpr f)) * interactiveForce (options f).

(** Lines 104-113. *)
Definition interact (f : BreathBubbles) (b : Bubble) : Bubble :=
  if mouse_active (mouse f) then
    let dx := x b - mouse_x (mouse f) in
    let dy := y b - mouse_y (mouse f) in
    let dist := Math_hypot dx dy in
    if Rlt_dec dist (180 * dpr f) then
      let force := force_at f dist in
      let b1 := with_x (x b + dx * force) b in
      with_y (y b1 + dy * force) b1
    else b
  else b.

(** The body of the update loop (lines 86-114) for one bubble. *)
Definition update (f : BreathBubbles) (t breath : R) (b : Bubble) : Rand Bubble :=
  b1 <- recycle (canvas f) (move (options f) t breath (breathe breath b)) ;;
  ret (interact f (wrap (canvas f) b1)).

(** [for (const b of this.bubbles)], each bubble rewritten in place. *)
Fixpoint for_each (body : Bubble -> Rand Bubble) (bs : list Bubble)
    : Rand (list Bubble) :=
  match bs with
  | [] => ret []
  | b :: rest =>
      b' <- body b ;;
      rest' <- for_each body rest ;;
      ret (b' :: rest')
  end.

(** Lines 121-132: the line between two bubbles, if they are near. *)
Definition connect (f : BreathBubbles) (b1 b2 : Bubble) : list Cmd :=
  let dx := x b1 - x b2 in
  let dy := y b1 - y b2 in
  let dist := Math_hypot dx dy in
  if Rlt_dec dist (connectionDistance (options f) * dpr f) then
    let alpha := 1 - dist / (connectionDistance (options f) * dpr f) in
    [ StrokeStyle (Hsla ((hue b1 + hue b2) / 2) 80 62 (alpha * 0.12));
      BeginPath;
      MoveTo (x b1) (y b1);
      LineTo (x b2) (y b2);
      Stroke ]
  else [].

(** Lines 118-134: every pair [i < j], in the order of the two loops. *)
Fixpoint connections (f : BreathBubbles) (bs : list Bubble) : list Cmd :=
  match bs with
  | [] => []
  | b1 :: rest => flat_map (connect f b1) rest ++ connections f rest
  end.

(** Lines 138-151. *)
Definition draw (f : BreathBubbles) (b : Bubble) : list Cmd :=
  let grd := {|
    g_x0 := x b - r b * 0.4; g_y0 := y b - r b * 0.5; g_r0 := r b * 0.1;
    g_x1 := x b; g_y1 := y b; g_r1 := r b;
    g_stops := [ (0, Hsla (hue b) 95 78 0.85);
                 (0.55, Hsla (hue b + 10) 85 62 0.45);
                 (1, Hsla (hue b) 90 40 0.10) ] |} in
  [ FillStyle grd;
    BeginPath;
    Arc (x b) (y b) (r b) 0 (PI * 2);
    Fill;
    StrokeStyle (Hsla (hue b) 95 82 0.35);
    LineWidth (1.2 * dpr f);
    Stroke ].

(** One frame at time [now]: the instance afterwards and the trace of
    the context.  The request for the next frame (line 154) is the
    host's next [Frame] event. *)
Definition frame (now : R) (f : BreathBubbles) : Rand (BreathBubbles * list Cmd) :=
  let t := now - t0 f in
  let breath := breath_at (options f) t in
  bs <- for_each (update f t breath) (bubbles f) ;;
  let f' := with_bubbles bs f in
  ret (f',
       [ ClearRect 0 0 (canvas_width (canvas f)) (canvas_height (canvas f)) ]
       ++ [ LineWidth (1 * dpr f) ]
       ++ connections f' bs
       ++ flat_map (draw f') bs).

(** ** Construction (lines 5-33, 158-162) *)

Inductive JsError : Type :=
| TypeError.

(** How a call completes: with a value, or by throwing. *)
Inductive Completion (A : Type) : Type :=
| Normal (a : A)
| Throw (e : JsError).

Arguments Normal {A} a.
Arguments Throw {A} e.

(** Line 8: [window.devicePixelRatio || 1]. *)
Definition dpr_or_1 (devicePixelRatio : R) : R :=
  if Req_dec_T devicePixelRatio 0 then 1 else devicePixelRatio.

(** [new BreathBubbles(canvas, options)].  [el] is the element passed
    ([None] for [null], on which [getContext] throws); the host supplies
    the device pixel ratio, the clock and the element's rectangle. *)
Definition construct (el : option Canvas) (opts : Overrides)
    (devicePixelRatio now : R) (rect : DOMRect)
    : Rand (Completion BreathBubbles) :=
  match el with
  | None => ret (Throw TypeError)
  | Some c =>
      let f := {| canvas := c;
                  dpr := dpr_or_1 devicePixelRatio;
                  options := Object_assign defaults opts;
                  bubbles := [];
                  t0 := now;
                  mouse := {| mouse_x := 0; mouse_y := 0; mouse_active := false |} |} in
      f' <- init (resize rect f) ;;
      ret (Normal f')
  end.

(** Lines 158-162: nothing is built when the element is missing. *)
Definition initBreathBubbles (el : option Canvas) (devicePixelRatio now : R)
    (rect : DOMRect) : Rand (option BreathBubbles) :=
  match el with
  | None => ret None
  | Some c =>
      res <- construct (Some c) no_overrides devicePixelRatio now rect ;;
      ret (match res with Normal f => Some f | Throw _ => None end)
  end.

(** ** The host's schedule *)

Inductive Event : Type :=
| Frame (now : R)
| PointerMove (clientX clientY : R) (rect : DOMRect)
| PointerLeave
| Resize (rect : DOMRect)
| VisibilityChange (visible : bool) (now : R).

Definition step (e : Event) (f : BreathBubbles) : Rand (BreathBubbles * list Cmd) :=
  match e with
  | Frame now => frame now f
  | PointerMove cx cy rect => ret (on_pointermove cx cy rect f, [])
  | PointerLeave => ret (on_pointerleave f, [])
  | Resize rect => ret (resize rect f, [])
  | VisibilityChange v now => ret (on_visibilitychange v now f, [])
  end.

Fixpoint run (es : list Event) (f : BreathBubbles) : Rand (BreathBubbles * list Cmd) :=
  match es with
  | [] => ret (f, [])
  | e :: rest =>
      p <- step e f ;;
      q <- run rest (fst p) ;;
      ret (fst q, snd p ++ snd q)
  end.

(** ** Observations used in the statements *)

(** What a recycle keeps: everything but position and current radius. *)
Definition same_identity (b b' : Bubble) : Prop :=
  baseR b' = baseR b /\ hue b' = hue b /\ vy b' = vy b /\ vx b' = vx b /\
  wobbleSeed b' = wobbleSeed b.

(** The distance [dist] of line 107. *)
Definition pointer_distance (f : BreathBubbles) (b : Bubble) : R :=
  Math_hypot (x b - mouse_x (mouse f)) (y b - mouse_y (mouse f)).

(** How far the interaction step moves a bubble. *)
Definition displacement (f : BreathBubbles) (b : Bubble) : R :=
  Math_hypot (x (interact f b) - x b) (y (interact f b) - y b).

(** ** Concrete inputs *)

Definition sample_field : BreathBubbles := {|
  canvas := {| width := 100; height := 100 |};
  dpr := 1;
  options := defaults;
  bubbles := [];
  t0 := 0;
  mouse := {| mouse_x := 0; mouse_y := 0; mouse_active := false |}
|}.

Definition sample_bubble : Bubble := {|
  x := 50; y := 50; r := 20; baseR := 20; hue := 190;
  vy := - 0.3; vx := 0.1; wobbleSeed := 500
|}.

Definition right_of_canvas : Bubble := with_x 121 sample_bubble.

Definition left_of_canvas : Bubble := with_x (- 21) sample_bubble.

Definition above_canvas : Bubble := with_y (- 21) sample_bubble.

Definition inert_options : Options := {|
  bubbleCount := 0;
  baseHue := 190; hueRange := 40; minRadius := 14; maxRadius := 64;
  floatSpeed := (0.12, 0.55); wobbleStrength := 0.55; breathingPeriod := 6400;
  connectionDistance := 148; interactiveForce := 0.12; parallax := 0.06
|}.

Definition inert_field : BreathBubbles :=
  Build_BreathBubbles (canvas sample_field) 1 inert_options [] 0 (mouse sample_field).

Definition pointer_field : BreathBubbles :=
  with_mouse {| mouse_x := 0; mouse_y := 0; mouse_active := true |} sample_field.

Definition near_bubble : Bubble := with_y 0 (with_x 45 sample_bubble).

Definition far_bubble : Bubble := with_y 0 (with_x 90 sample_bubble).

(** The scenario of C3: one particle, radii from 10 to 10. *)
Definition scenario_overrides : Overrides := {|
  o_bubbleCount := Some 1%Z;
  o_baseHue := None;
  o_hueRange := None;
  o_minRadius := Some 10;
  o_maxRadius := Some 10;
  o_floatSpeed := None;
  o_wobbleStrength := None;
  o_breathingPeriod := None;
  o_connectionDistance := None;
  o_interactiveForce := None;
  o_parallax := None
|}.

Definition square_canvas : Canvas := {| width := 100; height := 100 |}.

Definition square_rect : DOMRect :=
  {| rect_left := 0; rect_top := 0; rect_width := 100; rect_height := 100 |}.

(** A supply whose every draw is one half. *)
Definition steady : Entropy := fun _ => 1 / 2.

(** A count of zero, the rest by default. *)
Definition zero_count : Overrides := {|
  o_bubbleCount := Some 0%Z;
  o_baseHue := None; o_hueRange := None; o_minRadius := None; o_maxRadius := None;
  o_floatSpeed := None; o_wobbleStrength := None; o_breathingPeriod := None;
  o_connectionDistance := None; o_interactiveForce := None; o_parallax := None
|}.

(** Radii from 64 down to 14, the rest by default. *)
Definition inverted_radii : Overrides := {|
  o_bubbleCount := None;
  o_baseHue := None; o_hueRange := None;
  o_minRadius := Some 64; o_maxRadius := Some 14;
  o_floatSpeed := None; o_wobbleStrength := None; o_breathingPeriod := None;
  o_connectionDistance := None; o_interactiveForce := None; o_parallax := None
|}.

(** ** Observations on creation and on the trace *)

(** What [makeBubble] promises of a bubble, for options with ordered
    ranges. *)
Definition fresh_bubble (c : Canvas) (o : Options) (b : Bubble) : Prop :=
  0 <= x b <= canvas_width c /\
  0 <= y b <= canvas_height c /\
  r b = baseR b /\
  minRadius o <= baseR b <= maxRadius o /\
  baseHue o - hueRange o / 2 <= hue b <= baseHue o + hueRange o / 2 /\
  - snd (floatSpeed o) <= vy b <= - fst (floatSpeed o) /\
  -0.15 <= vx b < 0.15 /\
  0 <= wobbleSeed b < 1000.

(** Options whose ranges are given low end first. *)
Definition ordered_ranges (o : Options) : Prop :=
  minRadius o <= maxRadius o /\
  0 <= hueRange o /\
  fst (floatSpeed o) <= snd (floatSpeed o).

(** No radius handed to the context is negative. *)
Definition radii_nonneg (c : Cmd) : Prop :=
  match c with
  | Arc _ _ radius _ _ => 0 <= radius
  | FillStyle g => 0 <= g_r0 g /\ 0 <= g_r1 g
  | _ => True
  end.

Definition is_arc (c : Cmd) : bool :=
  match c with
  | Arc _ _ _ _ _ => true
  | _ => false
  end.

Definition is_line_start (c : Cmd) : bool :=
  match c with
  | MoveTo _ _ => true
  | _ => false
  end.

(** The opacity of a stroke colour is positive and at most [top]. *)
Definition stroke_alpha_within (top : R) (c : Cmd) : Prop :=
  match c with
  | StrokeStyle col => 0 < hsla_a col <= top
  | _ => True
  end.

(** A bubble sitting exactly on the pointer of [pointer_field]. *)
Definition under_pointer : Bubble := with_y 0 (with_x 0 sample_bubble).

(** The test of line 96 on a bubble as the motion of the frame at
    [now] leaves it. *)
Definition leaves_top (f : BreathBubbles) (now : R) (b : Bubble) : bool :=
  let breath := breath_at (options f) (now - t0 f) in
  let bm := move (options f) (now - t0 f) breath (breathe breath b) in
  if Rlt_dec (y bm + r bm) 0 then true else false.

Definition is_frame (e : Event) : bool :=
  match e with
  | Frame _ => true
  | _ => false
  end.

(** A disc that still touches the canvas horizontally and has not
    passed its top edge. *)
Definition contained (c : Canvas) (b : Bubble) : Prop :=
  - r b <= x b <= canvas_width c + r b /\ y b >= - r b.

(** The start circle of a gradient lies within its end circle, and its
    stops are at offsets from 0 to 1. *)
Definition gradient_well_formed (g : Gradient) : Prop :=
  Math_hypot (g_x1 g - g_x0 g) (g_y1 g - g_y0 g) + g_r0 g <= g_r1 g /\
  Forall (fun stop => 0 <= fst stop <= 1) (g_stops g).

Definition fill_well_formed (c : Cmd) : Prop :=
  match c with
  | FillStyle g => gradient_well_formed g
  | _ => True
  end.

(** A bubble about to leave by the top and far to the right of the
    canvas of [sample_field]. *)
Definition top_right_corner : Bubble := with_y (- 21) (with_x 500 sample_bubble).

(** The default options without the wobble, and a field with them. *)
Definition still_options : Options := {|
  bubbleCount := 42;
  baseHue := 190; hueRange := 40; minRadius := 14; maxRadius := 64;
  floatSpeed := (0.12, 0.55); wobbleStrength := 0; breathingPeriod := 6400;
  connectionDistance := 148; interactiveForce := 0.12; parallax := 0.06
|}.

Definition still_field : BreathBubbles :=
  Build_BreathBubbles (canvas sample_field) 1 still_options [] 0 (mouse sample_field).

(** A bubble with no horizontal drift, one pixel past the right wrap
    threshold of a 100 wide canvas. *)
Definition one_past_right : Bubble := {|
  x := 121; y := 50; r := 20; baseR := 20; hue := 190;
  vy := - 0.3; vx := 0; wobbleSeed := 500
|}.

(** * Properties *)

(** ** Arithmetic of the model *)

(** Evaluates the projections of a concrete input, then linear arithmetic. *)
Ltac by_evaluation :=
  unfold canvas_width, canvas_height; cbn -[IZR]; lra.

Lemma canvas_width_nonneg (c : Canvas) : 0 <= canvas_width c.
Proof.
  unfold canvas_width. apply IZR_le. apply N2Z.is_nonneg.
Qed.

Lemma canvas_height_nonneg (c : Canvas) : 0 <= canvas_height c.
Proof.
  unfold canvas_height. apply IZR_le. apply N2Z.is_nonneg.
Qed.

Lemma hypot_nonneg (a b : R) : 0 <= Math_hypot a b.
Proof. apply sqrt_pos. Qed.

Lemma hypot_scale (k a b : R) :
  Math_hypot (k * a) (k * b) = Rabs k * Math_hypot a b.
Proof.
  unfold Math_hypot.
  replace (k * a * (k * a) + k * b * (k * b)) with ((k * k) * (a * a + b * b)) by ring.
  rewrite sqrt_mult; [ | nra | nra ].
  f_equal. replace (k * k) with (Rsqr k) by reflexivity. apply sqrt_Rsqr_abs.
Qed.

Lemma hypot_axis (a : R) : 0 <= a -> Math_hypot a 0 = a.
Proof.
  intros Ha. unfold Math_hypot.
  replace (a * a + 0 * 0) with (a * a) by ring. now apply sqrt_square.
Qed.

Lemma breath_range (o : Options) (t : R) : 0 <= breath_at o t <= 1.
Proof.
  unfold breath_at.
  pose proof (SIN_bound (t / breathingPeriod o * PI * 2)) as [Hlo Hhi]. lra.
Qed.

Lemma breath_at_origin (o : Options) : breath_at o 0 = 1 / 2.
Proof.
  unfold breath_at.
  replace (0 / breathingPeriod o * PI * 2) with 0 by (unfold Rdiv; ring).
  rewrite sin_0. lra.
Qed.

(** ** The steps of the update, one by one *)

Lemma same_identity_refl (b : Bubble) : same_identity b b.
Proof. repeat split. Qed.

Lemma same_identity_trans (b1 b2 b3 : Bubble) :
  same_identity b1 b2 -> same_identity b2 b3 -> same_identity b1 b3.
Proof.
  unfold same_identity. intros (A1 & A2 & A3 & A4 & A5) (B1 & B2 & B3 & B4 & B5).
  repeat split; congruence.
Qed.

Lemma recycle_unfold (c : Canvas) (b : Bubble) (g : Entropy) :
  recycle c b g =
  if Rlt_dec (y b + r b) 0
  then (with_x (g 0%nat * canvas_width c) (with_y (canvas_height c + r b * 2) b),
        fun n => g (S n))
  else (b, g).
Proof.
  unfold recycle. destruct (Rlt_dec (y b + r b) 0); reflexivity.
Qed.

Lemma recycle_identity (c : Canvas) (b : Bubble) (g : Entropy) :
  same_identity b (fst (recycle c b g)) /\ r (fst (recycle c b g)) = r b.
Proof.
  rewrite recycle_unfold. destruct (Rlt_dec (y b + r b) 0); repeat split.
Qed.

Lemma wrap_identity (c : Canvas) (b : Bubble) :
  same_identity b (wrap c b) /\ r (wrap c b) = r b /\ y (wrap c b) = y b.
Proof.
  unfold wrap.
  destruct (Rgt_dec (x b - r b) (canvas_width c));
    [ | destruct (Rlt_dec (x b + r b) 0) ]; repeat split.
Qed.

Lemma interact_identity (f : BreathBubbles) (b : Bubble) :
  same_identity b (interact f b) /\ r (interact f b) = r b.
Proof.
  unfold interact.
  destruct (mouse_active (mouse f)); [ | repeat split ].
  match goal with |- context [Rlt_dec ?a ?b] => destruct (Rlt_dec a b) end;
    repeat split.
Qed.

Lemma interact_inactive (f : BreathBubbles) (b : Bubble) :
  mouse_active (mouse f) = false -> interact f b = b.
Proof. intros H. unfold interact. now rewrite H. Qed.

Lemma update_unfold (f : BreathBubbles) (t breath : R) (b : Bubble) (g : Entropy) :
  update f t breath b g =
  let p := recycle (canvas f) (move (options f) t breath (breathe breath b)) g in
  (interact f (wrap (canvas f) (fst p)), snd p).
Proof.
  unfold update, bind, ret.
  destruct (recycle (canvas f) (move (options f) t breath (breathe breath b)) g).
  reflexivity.
Qed.

(** A whole update keeps the identity of the bubble and sets its radius
    from the breath of the tick. *)
Lemma update_identity (f : BreathBubbles) (t breath : R) (b : Bubble) (g : Entropy) :
  same_identity b (fst (update f t breath b g)) /\
  r (fst (update f t breath b g)) = baseR b * (0.82 + breath * 0.36).
Proof.
  rewrite update_unfold. cbn [fst snd].
  set (bm := move (options f) t breath (breathe breath b)).
  destruct (recycle_identity (canvas f) bm g) as [Hr1 Hr2].
  destruct (wrap_identity (canvas f) (fst (recycle (canvas f) bm g))) as (Hw1 & Hw2 & _).
  destruct (interact_identity f (wrap (canvas f) (fst (recycle (canvas f) bm g))))
    as [Hi1 Hi2].
  split.
  - apply same_identity_trans with (2 := Hi1).
    apply same_identity_trans with (2 := Hw1).
    apply same_identity_trans with (2 := Hr1).
    repeat split.
  - rewrite Hi2, Hw2, Hr2. reflexivity.
Qed.

(** ** Loops *)

Lemma for_each_Forall2 (P : Bubble -> Bubble -> Prop) (body : Bubble -> Rand Bubble) :
  (forall b g, P b (fst (body b g))) ->
  forall bs g, Forall2 P bs (fst (for_each body bs g)).
Proof.
  intros HP bs. induction bs as [ | b rest IH ]; intros g; cbn.
  - constructor.
  - unfold bind, ret. specialize (HP b g).
    destruct (body b g) as [b' g1]. specialize (IH g1).
    destruct (for_each body rest g1) as [rest' g2]. cbn in *.
    now constructor.
Qed.

Lemma for_each_length (body : Bubble -> Rand Bubble) (bs : list Bubble) (g : Entropy) :
  length (fst (for_each body bs g)) = length bs.
Proof.
  symmetry. apply (Forall2_length (for_each_Forall2 (fun _ _ => True) body (fun _ _ => I) bs g)).
Qed.

Lemma frame_bubbles (now : R) (f : BreathBubbles) (g : Entropy) :
  bubbles (fst (fst (frame now f g))) =
  fst (for_each (update f (now - t0 f) (breath_at (options f) (now - t0 f))) (bubbles f) g).
Proof.
  unfold frame, bind, ret.
  destruct (for_each _ (bubbles f) g) as [bs g1]. reflexivity.
Qed.

Lemma init_loop_length (c : Canvas) (o : Options) (todo : nat) :
  forall acc g, length (fst (init_loop c o todo acc g)) = (length acc + todo)%nat.
Proof.
  induction todo as [ | todo IH ]; intros acc g.
  - cbn. lia.
  - change (init_loop c o (S todo) acc g)
      with (let (b, g1) := makeBubble c o g in init_loop c o todo (acc ++ [b]) g1).
    destruct (makeBubble c o g) as [b g1].
    rewrite IH, length_app. cbn. lia.
Qed.

Lemma step_length (e : Event) (f : BreathBubbles) (g : Entropy) :
  length (bubbles (fst (fst (step e f g)))) = length (bubbles f).
Proof.
  destruct e; cbn; try reflexivity.
  - rewrite frame_bubbles. apply for_each_length.
  - destruct visible; reflexivity.
Qed.

Lemma run_length (es : list Event) :
  forall f g, length (bubbles (fst (fst (run es f g)))) = length (bubbles f).
Proof.
  induction es as [ | e rest IH ]; intros f g; cbn.
  - reflexivity.
  - unfold bind, ret. pose proof (step_length e f g) as Hs.
    destruct (step e f g) as [p g1]. cbn in Hs.
    specialize (IH (fst p) g1). destruct (run rest (fst p) g1) as [q g2].
    cbn in *. congruence.
Qed.

(** ** The breathing factor *)

(** C5. The breathing factor that a tick computes at elapsed time [t]
    is [(sin (2 PI t / breathingPeriod) + 1) / 2]; it lies in [0, 1] for
    every [t]; and, the period being a number one can divide by, it
    takes the same value at [t] and at [t + breathingPeriod]. *)
Theorem breath_formula_range_period (o : Options) (t : R) :
  breath_at o t = (sin (2 * PI * t / breathingPeriod o) + 1) / 2 /\
  0 <= breath_at o t <= 1 /\
  (breathingPeriod o <> 0 -> breath_at o (t + breathingPeriod o) = breath_at o t).
Proof.
  split; [ | split ].
  - unfold breath_at. do 2 f_equal. f_equal. unfold Rdiv. ring.
  - apply breath_range.
  - intros HP. unfold breath_at. do 2 f_equal.
    replace ((t + breathingPeriod o) / breathingPeriod o * PI * 2)
      with (t / breathingPeriod o * PI * 2 + 2 * INR 1 * PI)
      by (cbn [INR]; field; exact HP).
    apply sin_period.
Qed.

Lemma breath_formula_range_period_witness :
  breathingPeriod defaults <> 0 /\
  breath_at defaults (100 + breathingPeriod defaults) = breath_at defaults 100.
Proof.
  assert (H : breathingPeriod defaults <> 0) by (cbn -[IZR]; lra).
  split; [ exact H | ].
  exact (proj2 (proj2 (breath_formula_range_period defaults 100)) H).
Defined.

(** ** The breathing bound *)

Lemma radius_update_of_frame (now : R) (f : BreathBubbles) (g : Entropy) :
  Forall2 (fun b b' =>
             baseR b' = baseR b /\
             r b' = baseR b * (0.82 + breath_at (options f) (now - t0 f) * 0.36))
          (bubbles f) (bubbles (fst (fst (frame now f g)))).
Proof.
  rewrite frame_bubbles. apply for_each_Forall2.
  intros b g1.
  destruct (update_identity f (now - t0 f) (breath_at (options f) (now - t0 f)) b g1)
    as [Hid Hr].
  split; [ apply Hid | exact Hr ].
Qed.

(** C4. After the update of a tick, whatever the elapsed time, every
    particle has kept its base radius, its current radius is
    [baseR * (0.82 + breath * 0.36)] for the one breathing factor of the
    tick, and, a radius being non-negative, it lies between
    [0.82 * baseR] and [1.18 * baseR]. *)
Theorem radius_breathing_bound (now : R) (f : BreathBubbles) (g : Entropy) :
  let breath := breath_at (options f) (now - t0 f) in
  Forall2 (fun b b' =>
             baseR b' = baseR b /\
             r b' = baseR b * (0.82 + breath * 0.36) /\
             (0 <= baseR b -> 0.82 * baseR b <= r b' <= 1.18 * baseR b))
          (bubbles f) (bubbles (fst (fst (frame now f g)))).
Proof.
  intros breath. subst breath. rewrite frame_bubbles. apply for_each_Forall2.
  intros b g1.
  pose proof (breath_range (options f) (now - t0 f)) as Hbr.
  destruct (update_identity f (now - t0 f) (breath_at (options f) (now - t0 f)) b g1)
    as [Hid Hr].
  split; [ apply Hid | ]. split; [ exact Hr | ].
  intros Hb. rewrite Hr. nra.
Qed.

Lemma radius_breathing_bound_witness :
  0 <= baseR sample_bubble /\
  forall g : Entropy,
    Forall2 (fun b b' => 0.82 * baseR b <= r b' <= 1.18 * baseR b)
            [sample_bubble]
            (bubbles (fst (fst (frame 0 (with_bubbles [sample_bubble] sample_field) g)))).
Proof.
  assert (H : 0 <= baseR sample_bubble) by (cbn; lra).
  split; [ exact H | ]. intros g.
  pose proof (radius_breathing_bound 0 (with_bubbles [sample_bubble] sample_field) g) as HF.
  cbn zeta in HF. inversion HF as [ | b b' l l' (_ & _ & Hb) Hrest ]; subst.
  inversion Hrest; subst. constructor; [ exact (Hb H) | constructor ].
Defined.

(** ** Wrap and recycle *)

Lemma wrap_exact_steps (c : Canvas) (b : Bubble) :
  (x b > canvas_width c + r b -> x (wrap c b) = - r b) /\
  (0 <= r b -> x b + r b < 0 -> x (wrap c b) = canvas_width c + r b).
Proof.
  pose proof (canvas_width_nonneg c) as Hw.
  unfold wrap. split.
  - intros H. destruct (Rgt_dec (x b - r b) (canvas_width c)) as [ _ | Hn ].
    + reflexivity.
    + exfalso. apply Hn. lra.
  - intros Hr H. destruct (Rgt_dec (x b - r b) (canvas_width c)) as [ Hgt | _ ].
    + exfalso. lra.
    + destruct (Rlt_dec (x b + r b) 0) as [ _ | Hn ]; [ reflexivity | contradiction ].
Qed.

(** The wrap check on the bubble it is handed.  A particle that it
    finds with [x] beyond [width + r] (so one at [width + r + 1]) leaves
    it with [x] equal to [- r]; one that it finds with [x + r < 0] leaves
    it with [x] equal to [width + r]. *)
Theorem wrap_exact (c : Canvas) (b : Bubble) :
  (x b > canvas_width c + r b -> x (wrap c b) = - r b) /\
  (x b = canvas_width c + r b + 1 -> x (wrap c b) = - r b) /\
  (0 <= r b -> x b + r b < 0 -> x (wrap c b) = canvas_width c + r b).
Proof.
  destruct (wrap_exact_steps c b) as (HR & HL).
  split; [ exact HR | ]. split; [ | exact HL ].
  intros H. apply HR. lra.
Qed.

Lemma wrap_exact_witness :
  (x right_of_canvas > canvas_width (canvas sample_field) + r right_of_canvas /\
   x right_of_canvas = canvas_width (canvas sample_field) + r right_of_canvas + 1 /\
   x (wrap (canvas sample_field) right_of_canvas) = - 20) /\
  (0 <= r left_of_canvas /\ x left_of_canvas + r left_of_canvas < 0 /\
   x (wrap (canvas sample_field) left_of_canvas) = 120).
Proof.
  destruct (wrap_exact (canvas sample_field) right_of_canvas) as (HG & HR & _).
  destruct (wrap_exact (canvas sample_field) left_of_canvas) as (_ & _ & HL).
  assert (H0 : x right_of_canvas >
               canvas_width (canvas sample_field) + r right_of_canvas)
    by by_evaluation.
  assert (H1 : x right_of_canvas =
               canvas_width (canvas sample_field) + r right_of_canvas + 1)
    by by_evaluation.
  assert (H2 : 0 <= r left_of_canvas) by by_evaluation.
  assert (H3 : x left_of_canvas + r left_of_canvas < 0) by by_evaluation.
  split.
  - split; [ exact H0 | ]. split; [ exact H1 | ].
    rewrite <- (HR H1) at 1. rewrite (HG H0). by_evaluation.
  - split; [ exact H2 | ]. split; [ exact H3 | ]. rewrite (HL H2 H3). by_evaluation.
Defined.

(** Within a tick the wrap check reads the position left by the motion
    step, unless the recycle has just replaced it; with no pointer active
    its result is the position at the end of the tick. *)
Lemma update_wraps (f : BreathBubbles) (t breath : R) (b : Bubble) (g : Entropy) :
  let bm := move (options f) t breath (breathe breath b) in
  let b' := fst (update f t breath b g) in
  mouse_active (mouse f) = false ->
  ~ y bm + r bm < 0 ->
  (x bm > canvas_width (canvas f) + r bm -> x b' = - r b') /\
  (0 <= r bm -> x bm + r bm < 0 -> x b' = canvas_width (canvas f) + r b').
Proof.
  intros bm b' Hm Hy. subst b'. rewrite update_unfold. cbn [fst snd]. fold bm.
  rewrite recycle_unfold. destruct (Rlt_dec (y bm + r bm) 0); [ contradiction | ].
  cbn [fst]. rewrite interact_inactive by exact Hm.
  destruct (wrap_identity (canvas f) bm) as (_ & Hr & _).
  destruct (wrap_exact_steps (canvas f) bm) as (HR & HL).
  rewrite Hr. split; assumption.
Qed.

(** C6, as stated, fails: the recycle runs between the motion step
    and the wrap check.  On the 100 x 100 canvas, with no pointer, at
    elapsed time 0, the bubble at (500, -21) of radius 20 is, after the
    motion step, beyond [width + r] and above the top; the recycle gives
    it the random position 50 (the draw 1/2 times the width) and the wrap
    check leaves that alone: [x] ends at 50, not at [- r = - 20]. *)
Lemma wrap_after_motion_counterexample :
  let f := sample_field in
  let breath := breath_at (options f) 0 in
  let bm := move (options f) 0 breath (breathe breath top_right_corner) in
  let b' := fst (update f 0 breath top_right_corner steady) in
  mouse_active (mouse f) = false /\
  x bm > canvas_width (canvas f) + r bm /\
  y bm + r bm < 0 /\
  r b' = 20 /\
  x b' = 50 /\
  x b' <> - r b'.
Proof.
  intros f breath bm b'.
  assert (Hbr : breath = 1 / 2) by apply breath_at_origin.
  pose proof (SIN_bound ((0 + wobbleSeed top_right_corner) * 0.0018)) as Hs.
  assert (Hr : r bm = 20).
  { subst bm. cbn [move breathe with_x with_y with_r r baseR]. rewrite Hbr.
    cbn -[IZR]. lra. }
  assert (Hx : x bm > canvas_width (canvas f) + r bm).
  { rewrite Hr. subst bm. cbn [move breathe with_x with_y with_r x vx wobbleSeed].
    unfold canvas_width. cbn -[IZR sin] in *. lra. }
  assert (Hy : y bm + r bm < 0).
  { rewrite Hr. subst bm. cbn [move breathe with_x with_y with_r y vy]. rewrite Hbr.
    cbn -[IZR]. lra. }
  assert (Hb' : b' = with_x (steady 0%nat * canvas_width (canvas f))
                       (with_y (canvas_height (canvas f) + r bm * 2) bm)).
  { subst b'. rewrite update_unfold. cbn zeta. fold bm.
    rewrite interact_inactive by reflexivity. rewrite recycle_unfold.
    destruct (Rlt_dec (y bm + r bm) 0) as [ _ | Hn ]; [ | contradiction ].
    cbn [fst]. unfold wrap. cbn [x r with_x with_y].
    destruct (Rgt_dec (steady 0%nat * canvas_width (canvas f) - r bm)
                (canvas_width (canvas f))) as [ H1 | _ ].
    - exfalso. rewrite Hr in H1. revert H1. unfold steady, canvas_width.
      cbn -[IZR]. lra.
    - destruct (Rlt_dec (steady 0%nat * canvas_width (canvas f) + r bm) 0)
        as [ H2 | _ ]; [ | reflexivity ].
      exfalso. rewrite Hr in H2. revert H2. unfold steady, canvas_width.
      cbn -[IZR]. lra. }
  assert (Hr' : r b' = 20) by (rewrite Hb'; exact Hr).
  assert (Hx' : x b' = 50).
  { rewrite Hb'. cbn [x with_x]. unfold steady, canvas_width. cbn -[IZR]. lra. }
  split; [ reflexivity | ]. split; [ exact Hx | ]. split; [ exact Hy | ].
  split; [ exact Hr' | ]. split; [ exact Hx' | ]. rewrite Hx', Hr'. lra.
Qed.

(** C6, amended. Horizontal wraparound is exact for a particle that is
    not recycled in the tick: if, after the motion step, its bottom edge
    has not passed the top ([y + r >= 0]) and its [x] exceeds [width + r]
    (in particular if [x = width + r + 1]), the wrap check sets [x] to
    exactly [- r]; symmetrically, such a particle with [x + r < 0] is set
    to exactly [width + r].  A particle that is recycled in the tick has
    had its [x] replaced by the draw times the width before the wrap
    check, which then leaves it alone.  With no pointer active the result
    of the wrap check is the particle at the end of the tick. *)
Theorem wrap_exact_unless_recycled (f : BreathBubbles) (t breath : R) (b : Bubble)
    (g : Entropy) :
  let W := canvas_width (canvas f) in
  let bm := move (options f) t breath (breathe breath b) in
  let bw := wrap (canvas f) (fst (recycle (canvas f) bm g)) in
  (0 <= y bm + r bm -> x bm > W + r bm -> x bw = - r bm) /\
  (0 <= y bm + r bm -> x bm = W + r bm + 1 -> x bw = - r bm) /\
  (0 <= y bm + r bm -> 0 <= r bm -> x bm + r bm < 0 -> x bw = W + r bm) /\
  (y bm + r bm < 0 -> 0 <= r bm -> 0 <= g 0%nat < 1 -> x bw = g 0%nat * W) /\
  (mouse_active (mouse f) = false -> fst (update f t breath b g) = bw).
Proof.
  intros W bm bw.
  pose proof (canvas_width_nonneg (canvas f)) as Hw. fold W in Hw.
  destruct (wrap_exact_steps (canvas f) bm) as (HR & HL). fold W in HR, HL.
  assert (Hkeep : 0 <= y bm + r bm -> bw = wrap (canvas f) bm).
  { intros Hy. subst bw. rewrite recycle_unfold.
    destruct (Rlt_dec (y bm + r bm) 0) as [ Hlt | _ ]; [ exfalso; lra | reflexivity ]. }
  split; [ | split; [ | split; [ | split ] ] ].
  - intros Hy Hx. rewrite (Hkeep Hy). exact (HR Hx).
  - intros Hy Hx. rewrite (Hkeep Hy). apply HR. lra.
  - intros Hy Hr Hx. rewrite (Hkeep Hy). exact (HL Hr Hx).
  - intros Hy Hr Hu. subst bw. rewrite recycle_unfold.
    destruct (Rlt_dec (y bm + r bm) 0) as [ _ | Hn ]; [ | contradiction ].
    cbn [fst]. unfold wrap. cbn [x r with_x with_y]. fold W.
    destruct (Rgt_dec (g 0%nat * W - r bm) W) as [ H1 | _ ]; [ exfalso; nra | ].
    destruct (Rlt_dec (g 0%nat * W + r bm) 0) as [ H2 | _ ]; [ exfalso; nra | ].
    reflexivity.
  - intros Hm. rewrite update_unfold. cbn zeta. cbn [fst]. fold bm.
    apply interact_inactive. exact Hm.
Qed.

Lemma wrap_exact_unless_recycled_witness :
  let moved (f : BreathBubbles) (b : Bubble) :=
    move (options f) 0 (1 / 2) (breathe (1 / 2) b) in
  let wrapped (f : BreathBubbles) (b : Bubble) :=
    wrap (canvas f) (fst (recycle (canvas f) (moved f b) steady)) in
  (0 <= y (moved sample_field right_of_canvas) + r (moved sample_field right_of_canvas) /\
   x (moved sample_field right_of_canvas)
     > canvas_width (canvas sample_field) + r (moved sample_field right_of_canvas) /\
   x (wrapped sample_field right_of_canvas) = - 20) /\
  (0 <= y (moved still_field one_past_right) + r (moved still_field one_past_right) /\
   x (moved still_field one_past_right)
     = canvas_width (canvas still_field) + r (moved still_field one_past_right) + 1 /\
   x (wrapped still_field one_past_right) = - 20) /\
  (0 <= y (moved sample_field left_of_canvas) + r (moved sample_field left_of_canvas) /\
   0 <= r (moved sample_field left_of_canvas) /\
   x (moved sample_field left_of_canvas) + r (moved sample_field left_of_canvas) < 0 /\
   x (wrapped sample_field left_of_canvas) = 120) /\
  (y (moved sample_field top_right_corner) + r (moved sample_field top_right_corner) < 0 /\
   0 <= r (moved sample_field top_right_corner) /\
   0 <= steady 0%nat < 1 /\
   x (wrapped sample_field top_right_corner) = 50) /\
  (mouse_active (mouse sample_field) = false /\
   fst (update sample_field 0 (1 / 2) right_of_canvas steady)
   = wrapped sample_field right_of_canvas).
Proof.
  intros moved wrapped.
  pose proof (SIN_bound ((0 + 500) * 0.0018)) as Hs.
  destruct (wrap_exact_unless_recycled sample_field 0 (1 / 2) right_of_canvas steady)
    as (A1 & _ & _ & _ & A5).
  destruct (wrap_exact_unless_recycled still_field 0 (1 / 2) one_past_right steady)
    as (_ & B2 & _).
  destruct (wrap_exact_unless_recycled sample_field 0 (1 / 2) left_of_canvas steady)
    as (_ & _ & C3 & _).
  destruct (wrap_exact_unless_recycled sample_field 0 (1 / 2) top_right_corner steady)
    as (_ & _ & _ & D4 & _).
  cbn zeta in A1, A5, B2, C3, D4.
  assert (R1 : r (moved sample_field right_of_canvas) = 20)
    by (unfold moved; cbn -[IZR sin]; lra).
  assert (R2 : r (moved still_field one_past_right) = 20)
    by (unfold moved; cbn -[IZR sin]; lra).
  assert (R3 : r (moved sample_field left_of_canvas) = 20)
    by (unfold moved; cbn -[IZR sin]; lra).
  assert (R4 : r (moved sample_field top_right_corner) = 20)
    by (unfold moved; cbn -[IZR sin]; lra).
  assert (Y1 : 0 <= y (moved sample_field right_of_canvas)
                    + r (moved sample_field right_of_canvas))
    by (rewrite R1; unfold moved; cbn -[IZR sin]; lra).
  assert (X1 : x (moved sample_field right_of_canvas)
               > canvas_width (canvas sample_field) + r (moved sample_field right_of_canvas))
    by (rewrite R1; unfold moved, canvas_width; cbn -[IZR sin]; lra).
  assert (Y2 : 0 <= y (moved still_field one_past_right)
                    + r (moved still_field one_past_right))
    by (rewrite R2; unfold moved; cbn -[IZR sin]; lra).
  assert (X2 : x (moved still_field one_past_right)
               = canvas_width (canvas still_field) + r (moved still_field one_past_right) + 1)
    by (rewrite R2; unfold moved, canvas_width; cbn -[IZR sin]; lra).
  assert (Y3 : 0 <= y (moved sample_field left_of_canvas)
                    + r (moved sample_field left_of_canvas))
    by (rewrite R3; unfold moved; cbn -[IZR sin]; lra).
  assert (P3 : 0 <= r (moved sample_field left_of_canvas)) by (rewrite R3; lra).
  assert (X3 : x (moved sample_field left_of_canvas)
               + r (moved sample_field left_of_canvas) < 0)
    by (rewrite R3; unfold moved; cbn -[IZR sin]; lra).
  assert (Y4 : y (moved sample_field top_right_corner)
               + r (moved sample_field top_right_corner) < 0)
    by (rewrite R4; unfold moved; cbn -[IZR sin]; lra).
  assert (P4 : 0 <= r (moved sample_field top_right_corner)) by (rewrite R4; lra).
  assert (U4 : 0 <= steady 0%nat < 1) by (unfold steady; lra).
  assert (M5 : mouse_active (mouse sample_field) = false) by reflexivity.
  split; [ | split; [ | split; [ | split ] ] ].
  - split; [ exact Y1 | ]. split; [ exact X1 | ].
    transitivity (- r (moved sample_field right_of_canvas)); [ exact (A1 Y1 X1) | ].
    rewrite R1. lra.
  - split; [ exact Y2 | ]. split; [ exact X2 | ].
    transitivity (- r (moved still_field one_past_right)); [ exact (B2 Y2 X2) | ].
    rewrite R2. lra.
  - split; [ exact Y3 | ]. split; [ exact P3 | ]. split; [ exact X3 | ].
    transitivity (canvas_width (canvas sample_field)
                  + r (moved sample_field left_of_canvas)); [ exact (C3 Y3 P3 X3) | ].
    rewrite R3. unfold canvas_width. cbn -[IZR]. lra.
  - split; [ exact Y4 | ]. split; [ exact P4 | ]. split; [ exact U4 | ].
    transitivity (steady 0%nat * canvas_width (canvas sample_field));
      [ exact (D4 Y4 P4 U4) | ].
    unfold steady, canvas_width. cbn -[IZR]. lra.
  - split; [ exact M5 | ]. exact (A5 M5).
Defined.

(** C7. The recycle of a particle whose bottom edge is above the top
    boundary ([y + r < 0]) sets [y] to [height + 2 r] and [x] to the next
    random draw times the width, a position on the canvas for a draw in
    [0, 1); base radius, hue, both velocities and wobble seed (and the
    current radius) are what they were, through the recycle and through
    the rest of the tick. *)
Theorem recycle_preserves_identity (f : BreathBubbles) (b : Bubble) (g : Entropy) :
  y b + r b < 0 ->
  let b' := fst (recycle (canvas f) b g) in
  y b' = canvas_height (canvas f) + 2 * r b /\
  x b' = g 0%nat * canvas_width (canvas f) /\
  (0 <= g 0%nat < 1 -> 0 <= x b' <= canvas_width (canvas f)) /\
  snd (recycle (canvas f) b g) = (fun n => g (S n)) /\
  r b' = r b /\
  same_identity b b' /\
  same_identity b (interact f (wrap (canvas f) b')).
Proof.
  intros Hy b'. subst b'.
  pose proof (canvas_width_nonneg (canvas f)) as Hw.
  pose proof (recycle_identity (canvas f) b g) as [Hid Hr].
  assert (Hrest : same_identity b
            (interact f (wrap (canvas f) (fst (recycle (canvas f) b g))))).
  { apply same_identity_trans with (1 := Hid).
    apply same_identity_trans
      with (1 := proj1 (wrap_identity (canvas f) (fst (recycle (canvas f) b g)))).
    apply interact_identity. }
  revert Hid Hr Hrest. rewrite recycle_unfold.
  destruct (Rlt_dec (y b + r b) 0) as [ _ | Hn ]; [ | contradiction ].
  cbn [fst snd]. intros Hid Hr Hrest.
  split; [ cbn; ring | ].
  split; [ reflexivity | ].
  split; [ cbn; intros Hu; nra | ].
  split; [ reflexivity | ].
  split; [ exact Hr | ].
  split; [ exact Hid | exact Hrest ].
Qed.

Lemma recycle_preserves_identity_witness :
  y above_canvas + r above_canvas < 0 /\
  0 <= steady 0%nat < 1 /\
  y (fst (recycle (canvas sample_field) above_canvas steady)) = 140 /\
  x (fst (recycle (canvas sample_field) above_canvas steady)) = 50 /\
  0 <= x (fst (recycle (canvas sample_field) above_canvas steady))
    <= canvas_width (canvas sample_field) /\
  same_identity above_canvas (fst (recycle (canvas sample_field) above_canvas steady)).
Proof.
  assert (H : y above_canvas + r above_canvas < 0) by by_evaluation.
  assert (Hu : 0 <= steady 0%nat < 1) by (unfold steady; lra).
  split; [ exact H | ]. split; [ exact Hu | ].
  destruct (recycle_preserves_identity sample_field above_canvas steady H)
    as (Hy & Hx & Hin & _ & _ & Hid & _).
  split; [ rewrite Hy; by_evaluation | ].
  split; [ rewrite Hx; unfold steady; by_evaluation | ].
  split; [ exact (Hin Hu) | exact Hid ].
Defined.

(** C10. With no pointer active, the update of a tick leaves every
    particle of non-negative base radius, wherever it was,
    with [- r <= x <= width + r] and [y >= - r], [r] being its current
    radius of the tick. *)
Theorem containment_without_pointer (f : BreathBubbles) (now : R) (b : Bubble)
    (g : Entropy) :
  mouse_active (mouse f) = false ->
  0 <= baseR b ->
  let b' := fst (update f (now - t0 f) (breath_at (options f) (now - t0 f)) b g) in
  - r b' <= x b' <= canvas_width (canvas f) + r b' /\ y b' >= - r b'.
Proof.
  intros Hm Hb b'. subst b'.
  set (t := now - t0 f). set (breath := breath_at (options f) t).
  pose proof (breath_range (options f) t) as Hbr. fold breath in Hbr.
  pose proof (canvas_width_nonneg (canvas f)) as Hw.
  pose proof (canvas_height_nonneg (canvas f)) as Hh.
  rewrite update_unfold. cbn [fst snd].
  rewrite interact_inactive by exact Hm.
  set (bm := move (options f) t breath (breathe breath b)).
  assert (Hrm : r bm = baseR b * (0.82 + breath * 0.36)) by reflexivity.
  assert (Hr0 : 0 <= r bm) by (rewrite Hrm; nra).
  rewrite recycle_unfold.
  destruct (Rlt_dec (y bm + r bm) 0) as [ Hlt | Hge ]; cbn [fst]; unfold wrap;
    match goal with |- context [Rgt_dec ?u ?v] => destruct (Rgt_dec u v) as [ H1 | H1 ] end;
    try match goal with |- context [Rlt_dec ?u ?v] => destruct (Rlt_dec u v) as [ H2 | H2 ] end;
    cbn in *; lra.
Qed.

Lemma containment_without_pointer_witness :
  mouse_active (mouse sample_field) = false /\
  0 <= baseR right_of_canvas /\
  forall g : Entropy,
    y (fst (update sample_field (0 - t0 sample_field)
              (breath_at (options sample_field) (0 - t0 sample_field))
              right_of_canvas g))
    >= - r (fst (update sample_field (0 - t0 sample_field)
                   (breath_at (options sample_field) (0 - t0 sample_field))
                   right_of_canvas g)).
Proof.
  assert (H1 : mouse_active (mouse sample_field) = false) by reflexivity.
  assert (H2 : 0 <= baseR right_of_canvas) by by_evaluation.
  split; [ exact H1 | ]. split; [ exact H2 | ]. intros g.
  exact (proj2 (containment_without_pointer sample_field 0 right_of_canvas g H1 H2)).
Defined.

(** ** The number of particles *)

Lemma init_unfold (f : BreathBubbles) (g : Entropy) :
  init f g =
  let p := init_loop (canvas f) (options f) (Z.to_nat (bubbleCount (options f))) [] g in
  (with_bubbles (fst p) f, snd p).
Proof.
  unfold init, bind, ret.
  destruct (init_loop (canvas f) (options f) (Z.to_nat (bubbleCount (options f))) [] g).
  reflexivity.
Qed.

Lemma frame_empty (now : R) (f : BreathBubbles) (g : Entropy) :
  bubbles f = [] ->
  frame now f g =
  (f, [ ClearRect 0 0 (canvas_width (canvas f)) (canvas_height (canvas f));
        LineWidth (1 * dpr f) ], g).
Proof.
  intros He. unfold frame. rewrite He. cbn. unfold bind, ret. cbn.
  destruct f as [c d o bs t m]. cbn in He. subst bs. reflexivity.
Qed.

Lemma step_empty (e : Event) (f : BreathBubbles) (g : Entropy) :
  bubbles f = [] ->
  bubbles (fst (fst (step e f g))) = [] /\
  Forall (fun c => paints_bubble c = false) (snd (fst (step e f g))).
Proof.
  intros He. destruct e; cbn.
  - rewrite (frame_empty now f g He). cbn. split; [ exact He | ].
    repeat constructor.
  - split; [ exact He | constructor ].
  - split; [ exact He | constructor ].
  - split; [ exact He | constructor ].
  - destruct visible; (split; [ exact He | constructor ]).
Qed.

Lemma run_empty (es : list Event) :
  forall f g, bubbles f = [] ->
    Forall (fun c => paints_bubble c = false) (snd (fst (run es f g))).
Proof.
  induction es as [ | e rest IH ]; intros f g He; cbn.
  - constructor.
  - unfold bind, ret. destruct (step_empty e f g He) as [Hb Ht].
    destruct (step e f g) as [p g1]. cbn in Hb, Ht.
    specialize (IH (fst p) g1 Hb). destruct (run rest (fst p) g1) as [q g2].
    cbn in *. apply Forall_app. split; assumption.
Qed.

(** C8. Right after initialization the field holds [bubbleCount]
    particles (none when the count is zero or negative); no sequence of
    frames and host events changes that number; and a field initialized
    with a count of zero or less is empty: each of its frames clears the
    canvas, sets the line width and ends, painting no particle. *)
Theorem particle_count_constant (f : BreathBubbles) (g : Entropy) :
  let f' := fst (init f g) in
  let n := bubbleCount (options f) in
  Z.of_nat (length (bubbles f')) = Z.max 0 n /\
  ((0 <= n)%Z -> Z.of_nat (length (bubbles f')) = n) /\
  (forall es g', length (bubbles (fst (fst (run es f' g')))) = length (bubbles f')) /\
  ((n <= 0)%Z ->
     bubbles f' = [] /\
     (forall now g',
        frame now f' g' =
        (f', [ ClearRect 0 0 (canvas_width (canvas f')) (canvas_height (canvas f'));
               LineWidth (1 * dpr f') ], g')) /\
     (forall es g',
        Forall (fun c => paints_bubble c = false) (snd (fst (run es f' g'))))).
Proof.
  intros f' n. subst f' n. rewrite init_unfold. cbn [fst].
  set (o := options f).
  set (bs := fst (init_loop (canvas f) o (Z.to_nat (bubbleCount o)) [] g)).
  assert (Hlen : length bs = Z.to_nat (bubbleCount o)).
  { subst bs. rewrite init_loop_length. reflexivity. }
  split; [ | split; [ | split ] ].
  - cbn. rewrite Hlen. lia.
  - cbn. rewrite Hlen. lia.
  - intros es g'. apply run_length.
  - intros Hn.
    assert (He : bubbles (with_bubbles bs f) = []).
    { cbn. destruct bs as [ | b rest ]; [ reflexivity | ]. cbn in Hlen. lia. }
    split; [ exact He | ]. split.
    + intros now g'. apply frame_empty. exact He.
    + intros es g'. apply run_empty. exact He.
Qed.

Lemma particle_count_constant_witness :
  (0 <= bubbleCount (options inert_field))%Z /\
  (bubbleCount (options inert_field) <= 0)%Z /\
  forall g : Entropy,
    Z.of_nat (length (bubbles (fst (init inert_field g)))) = 0%Z /\
    bubbles (fst (init inert_field g)) = [].
Proof.
  assert (H1 : (0 <= bubbleCount (options inert_field))%Z) by (cbn; lia).
  assert (H2 : (bubbleCount (options inert_field) <= 0)%Z) by (cbn; lia).
  split; [ exact H1 | ]. split; [ exact H2 | ]. intros g.
  destruct (particle_count_constant inert_field g) as (_ & Hn & _ & He).
  split; [ exact (Hn H1) | exact (proj1 (He H2)) ].
Defined.

(** ** The pointer *)

Lemma interact_in_range (f : BreathBubbles) (b : Bubble) :
  mouse_active (mouse f) = true ->
  pointer_distance f b < 180 * dpr f ->
  x (interact f b) =
    x b + (x b - mouse_x (mouse f)) * force_at f (pointer_distance f b) /\
  y (interact f b) =
    y b + (y b - mouse_y (mouse f)) * force_at f (pointer_distance f b).
Proof.
  intros Ha Hd. unfold interact. rewrite Ha. fold (pointer_distance f b).
  destruct (Rlt_dec (pointer_distance f b) (180 * dpr f)) as [ _ | Hn ];
    [ | contradiction ].
  split; reflexivity.
Qed.

Lemma pointer_distance_after (f : BreathBubbles) (b : Bubble) :
  mouse_active (mouse f) = true ->
  pointer_distance f b < 180 * dpr f ->
  pointer_distance f (interact f b) =
  Rabs (1 + force_at f (pointer_distance f b)) * pointer_distance f b.
Proof.
  intros Ha Hd. destruct (interact_in_range f b Ha Hd) as [Hx Hy].
  set (k := force_at f (pointer_distance f b)) in *.
  unfold pointer_distance. rewrite Hx, Hy.
  rewrite <- hypot_scale. f_equal; ring.
Qed.

Lemma displacement_in_range (f : BreathBubbles) (b : Bubble) :
  mouse_active (mouse f) = true ->
  pointer_distance f b < 180 * dpr f ->
  displacement f b = Rabs (force_at f (pointer_distance f b)) * pointer_distance f b.
Proof.
  intros Ha Hd. destruct (interact_in_range f b Ha Hd) as [Hx Hy].
  set (k := force_at f (pointer_distance f b)) in *.
  unfold displacement, pointer_distance. rewrite Hx, Hy.
  rewrite <- hypot_scale. f_equal; ring.
Qed.

(** Inside the radius the factor of line 109 has the sign of
    [interactiveForce]. *)
Lemma force_sign (f : BreathBubbles) (d : R) :
  0 <= d < 180 * dpr f ->
  0 < 1 - d / (180 * dpr f) <= 1.
Proof.
  intros [H0 H1]. assert (HD : 0 < 180 * dpr f) by lra.
  assert (Hq : 0 <= d / (180 * dpr f) < 1).
  { split.
    - apply Rmult_le_pos; [ exact H0 | ]. left. now apply Rinv_0_lt_compat.
    - apply (Rmult_lt_reg_r (180 * dpr f)); [ exact HD | ].
      unfold Rdiv. rewrite Rmult_assoc, Rinv_l by lra. lra. }
  lra.
Qed.

Lemma near_bubble_distance : pointer_distance pointer_field near_bubble = 45.
Proof.
  unfold pointer_distance. cbn -[IZR].
  replace (45 - 0) with 45 by lra. replace (0 - 0) with 0 by lra.
  apply hypot_axis. lra.
Qed.

Lemma far_bubble_distance : pointer_distance pointer_field far_bubble = 90.
Proof.
  unfold pointer_distance. cbn -[IZR].
  replace (90 - 0) with 90 by lra. replace (0 - 0) with 0 by lra.
  apply hypot_axis. lra.
Qed.

Lemma near_bubble_force : force_at pointer_field 45 = 0.09.
Proof. unfold force_at. cbn -[IZR]. lra. Qed.

Lemma far_bubble_force : force_at pointer_field 90 = 0.06.
Proof. unfold force_at. cbn -[IZR]. lra. Qed.

(** C1, as stated, fails: with the default options and the pointer at
    the origin, the bubble at (90, 0) is inside the radius of 180 and the
    interaction step takes it to (95.4, 0), farther from the pointer. *)
Lemma interaction_toward_pointer_counterexample :
  mouse_active (mouse pointer_field) = true /\
  pointer_distance pointer_field far_bubble < 180 * dpr pointer_field /\
  x (interact pointer_field far_bubble) = 95.4 /\
  y (interact pointer_field far_bubble) = 0 /\
  ~ pointer_distance pointer_field (interact pointer_field far_bubble)
    <= pointer_distance pointer_field far_bubble.
Proof.
  assert (Ha : mouse_active (mouse pointer_field) = true) by reflexivity.
  assert (Hd : pointer_distance pointer_field far_bubble < 180 * dpr pointer_field).
  { rewrite far_bubble_distance. by_evaluation. }
  destruct (interact_in_range pointer_field far_bubble Ha Hd) as [Hx Hy].
  rewrite far_bubble_distance, far_bubble_force in Hx, Hy.
  split; [ exact Ha | ]. split; [ exact Hd | ].
  split; [ rewrite Hx; by_evaluation | ]. split; [ rewrite Hy; by_evaluation | ].
  rewrite (pointer_distance_after pointer_field far_bubble Ha Hd).
  rewrite far_bubble_distance, far_bubble_force.
  rewrite Rabs_pos_eq by lra. lra.
Qed.

(** C1, amended. For an active pointer and a particle within
    [180 * dpr] of it, the interaction step adds to the position the
    offset of the particle from the pointer, times
    [interactiveForce * (1 - distance / (180 * dpr))]: the displacement
    points away from the pointer, the distance to the pointer is
    multiplied by one plus that factor, and for a non-negative
    [interactiveForce] the particle is no closer to the pointer after the
    step than before it. *)
Theorem interaction_pushes_away (f : BreathBubbles) (b : Bubble) :
  mouse_active (mouse f) = true ->
  pointer_distance f b < 180 * dpr f ->
  let dist := pointer_distance f b in
  let force := interactiveForce (options f) * (1 - dist / (180 * dpr f)) in
  let b' := interact f b in
  x b' - mouse_x (mouse f) = (x b - mouse_x (mouse f)) * (1 + force) /\
  y b' - mouse_y (mouse f) = (y b - mouse_y (mouse f)) * (1 + force) /\
  (0 <= interactiveForce (options f) ->
     pointer_distance f b' = (1 + force) * dist /\
     dist <= pointer_distance f b').
Proof.
  intros Ha Hd dist force b'.
  assert (Hf : force_at f dist = force) by (unfold force_at, force; ring).
  destruct (interact_in_range f b Ha Hd) as [Hx Hy].
  fold dist in Hx, Hy. rewrite Hf in Hx, Hy. fold b' in Hx, Hy.
  split; [ rewrite Hx; ring | ]. split; [ rewrite Hy; ring | ].
  intros HF.
  pose proof (hypot_nonneg (x b - mouse_x (mouse f)) (y b - mouse_y (mouse f))) as H0.
  fold (pointer_distance f b) in H0. fold dist in H0.
  assert (Hs : 0 < 1 - dist / (180 * dpr f) <= 1)
    by (apply force_sign; split; [ exact H0 | exact Hd ]).
  assert (Hpos : 0 <= force) by (unfold force; nra).
  unfold b'. rewrite (pointer_distance_after f b Ha Hd). fold dist. rewrite Hf.
  rewrite Rabs_pos_eq by lra. split; [ reflexivity | nra ].
Qed.

Lemma interaction_pushes_away_witness :
  mouse_active (mouse pointer_field) = true /\
  pointer_distance pointer_field far_bubble < 180 * dpr pointer_field /\
  0 <= interactiveForce (options pointer_field) /\
  pointer_distance pointer_field far_bubble
  <= pointer_distance pointer_field (interact pointer_field far_bubble).
Proof.
  assert (Ha : mouse_active (mouse pointer_field) = true) by reflexivity.
  assert (Hd : pointer_distance pointer_field far_bubble < 180 * dpr pointer_field).
  { rewrite far_bubble_distance. by_evaluation. }
  assert (HF : 0 <= interactiveForce (options pointer_field)) by by_evaluation.
  split; [ exact Ha | ]. split; [ exact Hd | ]. split; [ exact HF | ].
  exact (proj2 (proj2 (proj2 (interaction_pushes_away pointer_field far_bubble Ha Hd)) HF)).
Defined.

(** C2, as stated, fails: with the default options and the pointer at
    the origin, the bubbles at (45, 0) and (90, 0) are both inside the
    radius of 180; the closer one is moved by 4.05, the farther by 5.4. *)
Lemma closer_moves_more_counterexample :
  mouse_active (mouse pointer_field) = true /\
  pointer_distance pointer_field near_bubble < pointer_distance pointer_field far_bubble /\
  pointer_distance pointer_field far_bubble < 180 * dpr pointer_field /\
  displacement pointer_field near_bubble = 4.05 /\
  displacement pointer_field far_bubble = 5.4 /\
  ~ displacement pointer_field near_bubble >= displacement pointer_field far_bubble.
Proof.
  assert (Ha : mouse_active (mouse pointer_field) = true) by reflexivity.
  assert (Hn : pointer_distance pointer_field near_bubble < 180 * dpr pointer_field).
  { rewrite near_bubble_distance. by_evaluation. }
  assert (Hf : pointer_distance pointer_field far_bubble < 180 * dpr pointer_field).
  { rewrite far_bubble_distance. by_evaluation. }
  assert (Dn : displacement pointer_field near_bubble = 4.05).
  { rewrite (displacement_in_range pointer_field near_bubble Ha Hn).
    rewrite near_bubble_distance, near_bubble_force.
    rewrite Rabs_pos_eq by lra. lra. }
  assert (Df : displacement pointer_field far_bubble = 5.4).
  { rewrite (displacement_in_range pointer_field far_bubble Ha Hf).
    rewrite far_bubble_distance, far_bubble_force.
    rewrite Rabs_pos_eq by lra. lra. }
  split; [ exact Ha | ].
  split; [ rewrite near_bubble_distance, far_bubble_distance; lra | ].
  split; [ exact Hf | ]. split; [ exact Dn | ]. split; [ exact Df | ].
  rewrite Dn, Df. lra.
Qed.

(** C2, amended. For an active pointer, a positive [interactiveForce]
    and two particles at different distances from the pointer, both
    within [180 * dpr]: the factor [interactiveForce * (1 - distance /
    (180 * dpr))] applied to the closer particle's offset is strictly
    greater than the one applied to the farther particle's; each
    particle is displaced by its distance times its factor; and the
    closer particle's displacement is greater than or equal to the
    farther's exactly when the two distances add up to at least
    [180 * dpr]. *)
Theorem force_monotone_in_distance (f : BreathBubbles) (b1 b2 : Bubble) :
  mouse_active (mouse f) = true ->
  0 < interactiveForce (options f) ->
  pointer_distance f b1 < pointer_distance f b2 ->
  pointer_distance f b2 < 180 * dpr f ->
  let d1 := pointer_distance f b1 in
  let d2 := pointer_distance f b2 in
  force_at f d1 > force_at f d2 /\
  displacement f b1 = d1 * force_at f d1 /\
  displacement f b2 = d2 * force_at f d2 /\
  (displacement f b1 >= displacement f b2 <-> d1 + d2 >= 180 * dpr f).
Proof.
  intros Ha HF H12 H2 d1 d2.
  assert (H01 : 0 <= d1) by apply hypot_nonneg.
  assert (H02 : 0 <= d2) by apply hypot_nonneg.
  fold d1 d2 in H12. fold d2 in H2.
  assert (H1 : d1 < 180 * dpr f) by lra.
  pose proof (force_sign f d1 (conj H01 H1)) as Hs1.
  pose proof (force_sign f d2 (conj H02 H2)) as Hs2.
  assert (HD : 0 < 180 * dpr f) by lra.
  assert (Hq : 0 < / (180 * dpr f)) by now apply Rinv_0_lt_compat.
  assert (Hinv : 180 * dpr f * / (180 * dpr f) = 1) by (apply Rinv_r; lra).
  assert (E1 : displacement f b1 = d1 * force_at f d1).
  { rewrite (displacement_in_range f b1 Ha H1). fold d1.
    rewrite Rabs_pos_eq; [ ring | unfold force_at; nra ]. }
  assert (E2 : displacement f b2 = d2 * force_at f d2).
  { rewrite (displacement_in_range f b2 Ha H2). fold d2.
    rewrite Rabs_pos_eq; [ ring | unfold force_at; nra ]. }
  assert (Hk : 0 < interactiveForce (options f) * / (180 * dpr f) * (d2 - d1)).
  { apply Rmult_lt_0_compat; [ apply Rmult_lt_0_compat; assumption | lra ]. }
  split; [ | split; [ exact E1 | split; [ exact E2 | ] ] ].
  - unfold force_at, Rdiv. lra.
  - rewrite E1, E2. unfold force_at, Rdiv in *.
    set (D := 180 * dpr f) in *. set (q := / D) in *.
    set (F := interactiveForce (options f)) in *.
    assert (Hdiff : d1 * ((1 - d1 * q) * F) - d2 * ((1 - d2 * q) * F)
                    = F * q * (d2 - d1) * (d1 + d2 - D)).
    { transitivity (F * (d1 - d2) * (D * q - (d1 + d2) * q)); [ rewrite Hinv | ]; ring. }
    set (K := F * q * (d2 - d1)) in *.
    set (m1 := d1 * ((1 - d1 * q) * F)) in *.
    set (m2 := d2 * ((1 - d2 * q) * F)) in *.
    clearbody K m1 m2.
    split; intros H.
    + destruct (Rle_or_lt D (d1 + d2)) as [ Hge | Hlt ]; [ lra | exfalso ].
      assert (K * (d1 + d2 - D) < 0); [ | lra ].
      rewrite <- (Rmult_0_r K). apply Rmult_lt_compat_l; lra.
    + assert (0 <= K * (d1 + d2 - D)); [ | lra ].
      apply Rmult_le_pos; lra.
Qed.

Lemma force_monotone_in_distance_witness :
  mouse_active (mouse pointer_field) = true /\
  0 < interactiveForce (options pointer_field) /\
  pointer_distance pointer_field near_bubble < pointer_distance pointer_field far_bubble /\
  pointer_distance pointer_field far_bubble < 180 * dpr pointer_field /\
  force_at pointer_field (pointer_distance pointer_field near_bubble)
  > force_at pointer_field (pointer_distance pointer_field far_bubble).
Proof.
  assert (Ha : mouse_active (mouse pointer_field) = true) by reflexivity.
  assert (HF : 0 < interactiveForce (options pointer_field)) by by_evaluation.
  assert (H12 : pointer_distance pointer_field near_bubble
                < pointer_distance pointer_field far_bubble).
  { rewrite near_bubble_distance, far_bubble_distance. lra. }
  assert (H2 : pointer_distance pointer_field far_bubble < 180 * dpr pointer_field).
  { rewrite far_bubble_distance. by_evaluation. }
  split; [ exact Ha | ]. split; [ exact HF | ]. split; [ exact H12 | ].
  split; [ exact H2 | ].
  exact (proj1 (force_monotone_in_distance pointer_field near_bubble far_bubble
                  Ha HF H12 H2)).
Defined.

(** ** Construction *)

Lemma construct_some (c : Canvas) (opts : Overrides) (d now : R) (rect : DOMRect)
    (g : Entropy) :
  let f0 := resize rect
              {| canvas := c; dpr := dpr_or_1 d;
                 options := Object_assign defaults opts;
                 bubbles := []; t0 := now;
                 mouse := {| mouse_x := 0; mouse_y := 0; mouse_active := false |} |} in
  construct (Some c) opts d now rect g = (Normal (fst (init f0 g)), snd (init f0 g)).
Proof.
  intros f0. unfold construct, bind, ret. fold f0.
  destruct (init f0 g) as [f1 g1]. reflexivity.
Qed.

Lemma makeBubble_radius (c : Canvas) (o : Options) (g : Entropy) :
  baseR (fst (makeBubble c o g)) = g 0%nat * (maxRadius o - minRadius o) + minRadius o /\
  r (fst (makeBubble c o g)) = baseR (fst (makeBubble c o g)).
Proof. split; reflexivity. Qed.

Lemma makeBubble_supply (c : Canvas) (o : Options) (g : Entropy) :
  unit_interval g -> unit_interval (snd (makeBubble c o g)).
Proof. intros Hg n. cbn. apply Hg. Qed.

Lemma init_loop_one (c : Canvas) (o : Options) (g : Entropy) :
  init_loop c o 1 [] g = ([fst (makeBubble c o g)], snd (makeBubble c o g)).
Proof.
  cbn [init_loop]. unfold bind, ret. destruct (makeBubble c o g) as [b g1].
  reflexivity.
Qed.

Lemma init_loop_Forall (P : Bubble -> Prop) (c : Canvas) (o : Options) :
  (forall g, unit_interval g -> P (fst (makeBubble c o g))) ->
  forall todo acc g, unit_interval g -> Forall P acc ->
    Forall P (fst (init_loop c o todo acc g)).
Proof.
  intros HP todo. induction todo as [ | todo IH ]; intros acc g Hg Hacc.
  - exact Hacc.
  - change (init_loop c o (S todo) acc g)
      with (let (b, g1) := makeBubble c o g in init_loop c o todo (acc ++ [b]) g1).
    pose proof (HP g Hg) as Hb. pose proof (makeBubble_supply c o g Hg) as Hg1.
    destruct (makeBubble c o g) as [b g1]. cbn [fst snd] in Hb, Hg1.
    apply IH; [ exact Hg1 | ].
    apply Forall_app. split; [ exact Hacc | constructor; [ exact Hb | constructor ] ].
Qed.

(** With a well-ordered range, every particle is created with its base
    radius in the range. *)
Lemma init_base_radius (f : BreathBubbles) (g : Entropy) :
  unit_interval g ->
  minRadius (options f) <= maxRadius (options f) ->
  Forall (fun b => minRadius (options f) <= baseR b <= maxRadius (options f))
         (bubbles (fst (init f g))).
Proof.
  intros Hg Ho. rewrite init_unfold. cbn [fst bubbles with_bubbles].
  apply init_loop_Forall; [ | exact Hg | constructor ].
  intros g1 Hg1. rewrite (proj1 (makeBubble_radius (canvas f) (options f) g1)).
  pose proof (Hg1 0%nat). nra.
Qed.

(** No event changes a base radius: what holds of the base radii at
    creation holds for the life of the field. *)
Lemma step_base_radius (Q : R -> Prop) (e : Event) (f : BreathBubbles) (g : Entropy) :
  Forall (fun b => Q (baseR b)) (bubbles f) ->
  Forall (fun b => Q (baseR b)) (bubbles (fst (fst (step e f g)))).
Proof.
  intros HQ. destruct e; cbn; try exact HQ.
  - pose proof (radius_update_of_frame now f g) as HF.
    induction HF as [ | b b' l l' (Hb & _) _ IH ]; [ constructor | ].
    inversion HQ; subst. constructor; [ rewrite Hb; assumption | now apply IH ].
  - destruct visible; exact HQ.
Qed.

Lemma run_base_radius (Q : R -> Prop) (es : list Event) :
  forall f g,
    Forall (fun b => Q (baseR b)) (bubbles f) ->
    Forall (fun b => Q (baseR b)) (bubbles (fst (fst (run es f g)))).
Proof.
  induction es as [ | e rest IH ]; intros f g HQ; cbn.
  - exact HQ.
  - unfold bind, ret. pose proof (step_base_radius Q e f g HQ) as Hs.
    destruct (step e f g) as [p g1]. cbn in Hs.
    specialize (IH (fst p) g1 Hs). destruct (run rest (fst p) g1) as [q g2].
    exact IH.
Qed.

(** With an inverted range the base radii fall between the two bounds,
    the other way round. *)
Lemma init_base_radius_inverted (f : BreathBubbles) (g : Entropy) :
  unit_interval g ->
  maxRadius (options f) < minRadius (options f) ->
  Forall (fun b => maxRadius (options f) < baseR b <= minRadius (options f))
         (bubbles (fst (init f g))).
Proof.
  intros Hg Ho. rewrite init_unfold. cbn [fst bubbles with_bubbles].
  apply init_loop_Forall; [ | exact Hg | constructor ].
  intros g1 Hg1. rewrite (proj1 (makeBubble_radius (canvas f) (options f) g1)).
  pose proof (Hg1 0%nat). nra.
Qed.

Lemma scenario_first_frame (c : Canvas) (d now : R) (rect : DOMRect) (g : Entropy) :
  exists f,
    fst (construct (Some c) scenario_overrides d now rect g) = Normal f /\
    canvas f = {| width := to_unsigned (rect_width rect * dpr_or_1 d);
                  height := to_unsigned (rect_height rect * dpr_or_1 d) |} /\
    mouse_active (mouse f) = false /\
    breath_at (options f) (now - t0 f) = 1 / 2 /\
    forall g', exists b,
      bubbles (fst (fst (frame now f g'))) = [b] /\ baseR b = 10 /\ r b = 10.
Proof.
  rewrite construct_some. cbn zeta. cbn [fst].
  match goal with |- context [init ?f g] => set (f0 := f) end.
  assert (Ho : options f0 = Object_assign defaults scenario_overrides) by reflexivity.
  assert (Ht0 : t0 f0 = now) by reflexivity.
  assert (Hm : mouse_active (mouse f0) = false) by reflexivity.
  assert (Hc : canvas f0 =
               {| width := to_unsigned (rect_width rect * dpr_or_1 d);
                  height := to_unsigned (rect_height rect * dpr_or_1 d) |})
    by reflexivity.
  clearbody f0. rewrite init_unfold. cbn [fst]. rewrite Ho.
  change (Z.to_nat (bubbleCount (Object_assign defaults scenario_overrides)))
    with 1%nat.
  rewrite init_loop_one. cbn [fst].
  set (o := Object_assign defaults scenario_overrides) in *.
  pose proof (makeBubble_radius (canvas f0) o g) as [Hb _].
  set (b0 := fst (makeBubble (canvas f0) o g)) in *. clearbody b0.
  assert (HR : baseR b0 = 10).
  { rewrite Hb. change (maxRadius o) with 10. change (minRadius o) with 10. lra. }
  set (f1 := with_bubbles [b0] f0).
  assert (Ht : now - t0 f1 = 0) by (cbn; lra).
  exists f1. split; [ reflexivity | ]. split; [ exact Hc | ]. split; [ exact Hm | ].
  split; [ rewrite Ht; apply breath_at_origin | ].
  intros g'. pose proof (radius_update_of_frame now f1 g') as HF.
  change (bubbles f1) with [b0] in HF.
  inversion HF as [ | u b' l l' (Hbase & Hr) Hrest Hl Hl' ]; subst u l.
  inversion Hrest; subst. exists b'. split; [ reflexivity | ].
  split; [ congruence | ]. rewrite Hr, HR, Ht, breath_at_origin. lra.
Qed.

Lemma steady_unit_interval : unit_interval steady.
Proof. intros n. unfold steady. lra. Qed.

Lemma to_unsigned_100 : to_unsigned (100 * dpr_or_1 1) = 100%N.
Proof.
  unfold to_unsigned, dpr_or_1.
  destruct (Req_dec_T 1 0) as [ H | _ ]; [ lra | ].
  replace (Int_part (100 * 1)) with 100%Z; [ reflexivity | ].
  apply Int_part_spec. lra.
Qed.

(** C3, as stated, fails: on a 100 x 100 surface, one particle with
    radii from 10 to 10, no pointer, the first frame at elapsed time 0
    leaves the particle with a current radius of 10, not 8.2. *)
Lemma first_frame_radius_counterexample :
  exists f b,
    construct (Some square_canvas) scenario_overrides 1 0 square_rect steady
      = (Normal f, snd (construct (Some square_canvas) scenario_overrides 1 0
                          square_rect steady)) /\
    canvas f = square_canvas /\
    mouse_active (mouse f) = false /\
    bubbles (fst (fst (frame 0 f
                         (snd (construct (Some square_canvas) scenario_overrides 1 0
                                 square_rect steady))))) = [b] /\
    baseR b = 10 /\
    r b = 10 /\
    r b <> 10 * 0.82.
Proof.
  destruct (scenario_first_frame square_canvas 1 0 square_rect steady)
    as (f & Hf & Hc & Hm & _ & Hb).
  destruct (Hb (snd (construct (Some square_canvas) scenario_overrides 1 0
                       square_rect steady))) as (b & Hbs & HR & Hr).
  exists f, b. split.
  - rewrite <- Hf. apply surjective_pairing.
  - split.
    + rewrite Hc. cbn [rect_width rect_height square_rect].
      rewrite to_unsigned_100. reflexivity.
    + split; [ exact Hm | ]. split; [ exact Hbs | ]. split; [ exact HR | ].
      split; [ exact Hr | ]. rewrite Hr. lra.
Qed.

(** C3, amended. For a field constructed with one particle and radii
    from 10 to 10, on any surface (so a 100 x 100 one) and with no
    pointer active, the breathing factor of a frame at elapsed time 0 is
    1/2 (the sine is 0 there), and after that frame the sole particle's
    current radius equals 10 x 1.0 = 10. *)
Theorem first_frame_radius (c : Canvas) (d now : R) (rect : DOMRect) (g : Entropy) :
  match construct (Some c) scenario_overrides d now rect g with
  | (Normal f, g1) =>
      mouse_active (mouse f) = false /\
      breath_at (options f) (now - t0 f) = (sin 0 + 1) / 2 /\
      breath_at (options f) (now - t0 f) = 1 / 2 /\
      exists b, bubbles (fst (fst (frame now f g1))) = [b] /\
                r b = 10 * (0.82 + 1 / 2 * 0.36) /\ r b = 10
  | (Throw _, _) => False
  end.
Proof.
  destruct (scenario_first_frame c d now rect g) as (f & Hf & _ & Hm & Hbr & Hb).
  destruct (construct (Some c) scenario_overrides d now rect g) as [res g1].
  cbn [fst] in Hf. subst res.
  destruct (Hb g1) as (b & Hbs & _ & Hr).
  split; [ exact Hm | ]. split; [ rewrite Hbr, sin_0; lra | ]. split; [ exact Hbr | ].
  exists b. split; [ exact Hbs | ]. split; [ rewrite Hr; lra | exact Hr ].
Qed.

Lemma construct_accepts (c : Canvas) (opts : Overrides) (d now : R) (rect : DOMRect)
    (g : Entropy) :
  exists f,
    fst (construct (Some c) opts d now rect g) = Normal f /\
    options f = Object_assign defaults opts /\
    Z.of_nat (length (bubbles f)) = Z.max 0 (bubbleCount (options f)) /\
    (unit_interval g -> maxRadius (options f) < minRadius (options f) ->
       Forall (fun b => maxRadius (options f) < baseR b <= minRadius (options f))
              (bubbles f)).
Proof.
  rewrite construct_some. cbn zeta. cbn [fst].
  match goal with |- context [init ?f g] => set (f0 := f) end.
  assert (Ho : options f0 = Object_assign defaults opts) by reflexivity.
  clearbody f0. exists (fst (init f0 g)).
  assert (Ho1 : options (fst (init f0 g)) = options f0)
    by (rewrite init_unfold; reflexivity).
  split; [ reflexivity | ]. split; [ congruence | ]. rewrite Ho1. split.
  - rewrite init_unfold. cbn [fst bubbles with_bubbles].
    rewrite init_loop_length. cbn [length]. lia.
  - intros Hg Hinv. apply init_base_radius_inverted; assumption.
Qed.

(** C9, as stated, fails: the constructor builds a field from a count
    of zero, and from radii running from 64 down to 14; it throws for
    neither. *)
Lemma construction_validates_counterexample :
  (bubbleCount (Object_assign defaults zero_count) <= 0)%Z /\
  minRadius (Object_assign defaults inverted_radii)
    > maxRadius (Object_assign defaults inverted_radii) /\
  (forall e, fst (construct (Some square_canvas) zero_count 1 0 square_rect steady)
             <> Throw e) /\
  (forall e, fst (construct (Some square_canvas) inverted_radii 1 0 square_rect steady)
             <> Throw e) /\
  (exists f, fst (construct (Some square_canvas) inverted_radii 1 0 square_rect steady)
             = Normal f /\ length (bubbles f) = 42%nat /\
             Forall (fun b => 14 < baseR b <= 64) (bubbles f)).
Proof.
  split; [ cbn; lia | ]. split; [ cbn -[IZR]; lra | ].
  destruct (construct_accepts square_canvas zero_count 1 0 square_rect steady)
    as (f1 & H1 & _).
  destruct (construct_accepts square_canvas inverted_radii 1 0 square_rect steady)
    as (f2 & H2 & Ho & Hn & Hb).
  split; [ intros e; rewrite H1; discriminate | ].
  split; [ intros e; rewrite H2; discriminate | ].
  exists f2. split; [ exact H2 | ]. rewrite Ho in Hn, Hb. split.
  - cbn in Hn. lia.
  - apply Hb; [ exact steady_unit_interval | cbn -[IZR]; lra ].
Qed.

(** C9, amended. Construction validates nothing: given a canvas, it
    succeeds for every configuration and returns a field whose options
    are the defaults overridden by the configuration.  A particle count
    of zero or less gives an empty field, and an inverted radius range
    (maxRadius < minRadius) gives particles whose base radius lies in
    (maxRadius, minRadius]. *)
Theorem construction_validates_nothing (c : Canvas) (opts : Overrides) (d now : R)
    (rect : DOMRect) (g : Entropy) :
  exists f,
    fst (construct (Some c) opts d now rect g) = Normal f /\
    options f = Object_assign defaults opts /\
    ((bubbleCount (options f) <= 0)%Z -> bubbles f = []) /\
    (unit_interval g -> maxRadius (options f) < minRadius (options f) ->
       Forall (fun b => maxRadius (options f) < baseR b <= minRadius (options f))
              (bubbles f)).
Proof.
  destruct (construct_accepts c opts d now rect g) as (f & Hf & Ho & Hn & Hb).
  exists f. split; [ exact Hf | ]. split; [ exact Ho | ]. split; [ | exact Hb ].
  intros Hz. destruct (bubbles f) as [ | b rest ]; [ reflexivity | ].
  cbn [length] in Hn. lia.
Qed.

Lemma construction_validates_nothing_witness :
  ((bubbleCount (Object_assign defaults zero_count) <= 0)%Z /\
   exists f,
     fst (construct (Some square_canvas) zero_count 1 0 square_rect steady) = Normal f /\
     bubbles f = []) /\
  (unit_interval steady /\
   maxRadius (Object_assign defaults inverted_radii)
     < minRadius (Object_assign defaults inverted_radii) /\
   exists f,
     fst (construct (Some square_canvas) inverted_radii 1 0 square_rect steady)
       = Normal f /\
     Forall (fun b => 14 < baseR b <= 64) (bubbles f)).
Proof.
  assert (H : (bubbleCount (Object_assign defaults zero_count) <= 0)%Z) by (cbn; lia).
  assert (Hi : maxRadius (Object_assign defaults inverted_radii)
               < minRadius (Object_assign defaults inverted_radii))
    by by_evaluation.
  split.
  - split; [ exact H | ].
    destruct (construction_validates_nothing square_canvas zero_count 1 0
                square_rect steady) as (f & Hf & Ho & Hz & _).
    exists f. split; [ exact Hf | ]. apply Hz. rewrite Ho. exact H.
  - split; [ exact steady_unit_interval | ]. split; [ exact Hi | ].
    destruct (construction_validates_nothing square_canvas inverted_radii 1 0
                square_rect steady) as (f & Hf & Ho & _ & Hb).
    exists f. split; [ exact Hf | ]. rewrite Ho in Hb.
    exact (Hb steady_unit_interval Hi).
Defined.

(** * Further properties of the code *)

(** ** rand, makeBubble and init *)

(** X1. [rand(min, max)] (line 55) takes one draw and, for a draw in
    [0, 1) and [min <= max], answers a number from [min] up to [max],
    short of [max] when the range is not a point. *)
Theorem rand_in_range (min max : R) (g : Entropy) :
  0 <= g 0%nat < 1 ->
  min <= max ->
  min <= fst (rand min max g) <= max /\
  (min < max -> fst (rand min max g) < max) /\
  (forall k, snd (rand min max g) k = g (S k)).
Proof.
  intros Hu Hm. cbn. split; [ nra | ]. split; [ intros Hlt; nra | reflexivity ].
Qed.

Lemma rand_in_range_witness :
  0 <= steady 0%nat < 1 /\ 14 <= 64 /\ 14 < 64 /\
  14 <= fst (rand 14 64 steady) <= 64 /\ fst (rand 14 64 steady) < 64.
Proof.
  assert (Hu : 0 <= steady 0%nat < 1) by (unfold steady; lra).
  assert (Hm : 14 <= 64) by lra.
  assert (Hs : 14 < 64) by lra.
  destruct (rand_in_range 14 64 steady Hu Hm) as (Hr & Hlt & _).
  split; [ exact Hu | ]. split; [ exact Hm | ]. split; [ exact Hs | ].
  split; [ exact Hr | exact (Hlt Hs) ].
Defined.

Lemma makeBubble_fresh (c : Canvas) (o : Options) (g : Entropy) :
  unit_interval g -> ordered_ranges o -> fresh_bubble c o (fst (makeBubble c o g)).
Proof.
  intros Hg (Hr & Hh & Hs).
  pose proof (canvas_width_nonneg c) as Hw.
  pose proof (canvas_height_nonneg c) as Hh'.
  pose proof (Hg 0%nat) as U0. pose proof (Hg 1%nat) as U1.
  pose proof (Hg 2%nat) as U2. pose proof (Hg 3%nat) as U3.
  pose proof (Hg 4%nat) as U4. pose proof (Hg 5%nat) as U5.
  pose proof (Hg 6%nat) as U6.
  unfold fresh_bubble. cbn -[IZR].
  repeat split; try reflexivity; try nra.
Qed.

Lemma makeBubble_draws (c : Canvas) (o : Options) (g : Entropy) (k : nat) :
  snd (makeBubble c o g) k = g (k + 7)%nat.
Proof.
  replace (k + 7)%nat with (S (S (S (S (S (S (S k))))))) by lia. reflexivity.
Qed.

Lemma init_loop_draws (c : Canvas) (o : Options) (todo : nat) :
  forall acc g k, snd (init_loop c o todo acc g) k = g (k + 7 * todo)%nat.
Proof.
  induction todo as [ | todo IH ]; intros acc g k.
  - cbn. f_equal. lia.
  - change (init_loop c o (S todo) acc g)
      with (let (b, g1) := makeBubble c o g in init_loop c o todo (acc ++ [b]) g1).
    pose proof (makeBubble_draws c o g) as Hd.
    destruct (makeBubble c o g) as [b g1]. cbn [snd] in Hd.
    rewrite IH, Hd. f_equal. lia.
Qed.

(** X2. [makeBubble] (lines 64-76) takes seven draws and, for draws in
    [0, 1) and options with ordered ranges, makes a bubble on the canvas,
    its radius equal to its base radius and within the radius range, its
    hue within half the hue range of the base hue, its vertical velocity
    the opposite of a speed in the float-speed range, its horizontal
    velocity in [-0.15, 0.15) and its wobble seed in [0, 1000). *)
Theorem makeBubble_well_formed (c : Canvas) (o : Options) (g : Entropy) :
  unit_interval g ->
  ordered_ranges o ->
  fresh_bubble c o (fst (makeBubble c o g)) /\
  (0 <= fst (floatSpeed o) -> vy (fst (makeBubble c o g)) <= 0) /\
  (forall k, snd (makeBubble c o g) k = g (k + 7)%nat).
Proof.
  intros Hg Ho. pose proof (makeBubble_fresh c o g Hg Ho) as Hf.
  split; [ exact Hf | ]. split; [ | apply makeBubble_draws ].
  intros Hs. destruct Hf as (_ & _ & _ & _ & _ & Hv & _). lra.
Qed.

Lemma defaults_ordered : ordered_ranges defaults.
Proof. unfold ordered_ranges. cbn -[IZR]. lra. Qed.

Lemma makeBubble_well_formed_witness :
  unit_interval steady /\ ordered_ranges defaults /\
  0 <= fst (floatSpeed defaults) /\
  fresh_bubble square_canvas defaults (fst (makeBubble square_canvas defaults steady)) /\
  vy (fst (makeBubble square_canvas defaults steady)) <= 0.
Proof.
  assert (Hs : 0 <= fst (floatSpeed defaults)) by (cbn -[IZR]; lra).
  destruct (makeBubble_well_formed square_canvas defaults steady
              steady_unit_interval defaults_ordered) as (Hf & Hv & _).
  split; [ exact steady_unit_interval | ]. split; [ exact defaults_ordered | ].
  split; [ exact Hs | ]. split; [ exact Hf | exact (Hv Hs) ].
Defined.

(** X3. After [init] (lines 57-62), for draws in [0, 1) and options
    with ordered ranges, every particle of the field is on the canvas
    and within the configured ranges. *)
Theorem init_all_well_formed (f : BreathBubbles) (g : Entropy) :
  unit_interval g ->
  ordered_ranges (options f) ->
  Forall (fresh_bubble (canvas f) (options f)) (bubbles (fst (init f g))).
Proof.
  intros Hg Ho. rewrite init_unfold. cbn [fst bubbles with_bubbles].
  apply init_loop_Forall; [ | exact Hg | constructor ].
  intros g1 Hg1. apply makeBubble_fresh; assumption.
Qed.

Lemma init_all_well_formed_witness :
  unit_interval steady /\ ordered_ranges (options sample_field) /\
  Forall (fresh_bubble (canvas sample_field) (options sample_field))
         (bubbles (fst (init sample_field steady))).
Proof.
  split; [ exact steady_unit_interval | ]. split; [ exact defaults_ordered | ].
  exact (init_all_well_formed sample_field steady steady_unit_interval defaults_ordered).
Defined.

(** X4. [init] is a reset: the particles the field held before are
    dropped, not added to; canvas, pixel ratio, options, time origin and
    pointer are kept; and exactly seven draws per particle are taken. *)
Theorem init_resets (f : BreathBubbles) (old : list Bubble) (g : Entropy) :
  init (with_bubbles old f) g = init (with_bubbles [] f) g /\
  canvas (fst (init f g)) = canvas f /\
  dpr (fst (init f g)) = dpr f /\
  options (fst (init f g)) = options f /\
  t0 (fst (init f g)) = t0 f /\
  mouse (fst (init f g)) = mouse f /\
  (forall k, snd (init f g) k
             = g (k + 7 * Z.to_nat (bubbleCount (options f)))%nat).
Proof.
  split; [ rewrite !init_unfold; reflexivity | ].
  rewrite init_unfold. cbn [fst snd].
  repeat split. intros k. apply init_loop_draws.
Qed.

(** ** What no event changes *)

Lemma frame_state (now : R) (f : BreathBubbles) (g : Entropy) :
  fst (fst (frame now f g)) = with_bubbles (bubbles (fst (fst (frame now f g)))) f.
Proof.
  unfold frame, bind, ret.
  destruct (for_each _ (bubbles f) g) as [bs g1]. reflexivity.
Qed.

Lemma step_configuration (e : Event) (f : BreathBubbles) (g : Entropy) :
  options (fst (fst (step e f g))) = options f /\
  dpr (fst (fst (step e f g))) = dpr f.
Proof.
  destruct e; cbn; try (split; reflexivity).
  - rewrite frame_state. split; reflexivity.
  - destruct visible; split; reflexivity.
Qed.

Lemma run_configuration (es : list Event) :
  forall f g,
    options (fst (fst (run es f g))) = options f /\
    dpr (fst (fst (run es f g))) = dpr f.
Proof.
  induction es as [ | e rest IH ]; intros f g; cbn.
  - split; reflexivity.
  - unfold bind, ret. destruct (step_configuration e f g) as [Ho Hd].
    destruct (step e f g) as [p g1]. cbn [fst] in Ho, Hd.
    destruct (IH (fst p) g1) as [Ho' Hd'].
    destruct (run rest (fst p) g1) as [q g2]. cbn [fst] in *.
    split; congruence.
Qed.

Lemma dpr_or_1_nonzero (d : R) :
  dpr_or_1 d <> 0 /\ (d <> 0 -> dpr_or_1 d = d) /\ (d = 0 -> dpr_or_1 d = 1).
Proof.
  unfold dpr_or_1. destruct (Req_dec_T d 0) as [ Hz | Hnz ].
  - split; [ lra | ]. split; [ intros H; contradiction | reflexivity ].
  - split; [ exact Hnz | ]. split; [ reflexivity | intros H; contradiction ].
Qed.

Lemma construct_fields (c : Canvas) (opts : Overrides) (d now : R) (rect : DOMRect)
    (g : Entropy) :
  exists f,
    construct (Some c) opts d now rect g = (Normal f, snd (construct (Some c) opts d now rect g)) /\
    options f = Object_assign defaults opts /\
    dpr f = dpr_or_1 d /\
    t0 f = now /\
    mouse_active (mouse f) = false /\
    canvas f = {| width := to_unsigned (rect_width rect * dpr_or_1 d);
                  height := to_unsigned (rect_height rect * dpr_or_1 d) |} /\
    (unit_interval g -> minRadius (options f) <= maxRadius (options f) ->
       Forall (fun b => minRadius (options f) <= baseR b <= maxRadius (options f))
              (bubbles f)).
Proof.
  rewrite construct_some. cbn zeta. cbn [fst snd].
  match goal with |- context [init ?f g] => set (f0 := f) end.
  exists (fst (init f0 g)). split; [ reflexivity | ].
  assert (Ho : options (fst (init f0 g)) = options f0)
    by (rewrite init_unfold; reflexivity).
  rewrite Ho.
  repeat split; try (rewrite init_unfold; reflexivity).
  intros Hg Hr. apply (init_base_radius f0 g Hg Hr).
Qed.

(** X5. The options and the pixel ratio are fixed by the constructor
    (lines 8-21): whatever frames and events follow, the options are the
    defaults overridden by the argument and the pixel ratio is the one
    read at construction, 1 standing in for 0; it is never 0, so the
    interaction radius [180 * dpr] is never divided by as 0. *)
Theorem configuration_frozen (c : Canvas) (opts : Overrides) (d now : R)
    (rect : DOMRect) (g : Entropy) (es : list Event) (g' : Entropy) :
  match construct (Some c) opts d now rect g with
  | (Normal f, _) =>
      let f1 := fst (fst (run es f g')) in
      options f1 = Object_assign defaults opts /\
      dpr f1 = dpr_or_1 d /\
      dpr f1 <> 0 /\
      (d <> 0 -> dpr f1 = d) /\
      (d = 0 -> dpr f1 = 1)
  | (Throw _, _) => False
  end.
Proof.
  destruct (construct_fields c opts d now rect g) as (f & Hf & Ho & Hd & _).
  rewrite Hf. cbn zeta.
  destruct (run_configuration es f g') as [Ho' Hd'].
  destruct (dpr_or_1_nonzero d) as (Hn & Hnz & Hz).
  rewrite Ho', Hd', Ho, Hd. repeat split; assumption.
Qed.

Lemma configuration_frozen_witness :
  (2 <> 0 /\
   match construct (Some square_canvas) no_overrides 2 0 square_rect steady with
   | (Normal f, _) => dpr (fst (fst (run [Resize square_rect; Frame 16] f steady))) = 2
   | (Throw _, _) => False
   end) /\
  (0 = 0 /\
   match construct (Some square_canvas) no_overrides 0 0 square_rect steady with
   | (Normal f, _) => dpr (fst (fst (run [Resize square_rect; Frame 16] f steady))) = 1
   | (Throw _, _) => False
   end).
Proof.
  assert (H2 : 2 <> 0) by lra.
  assert (H0 : 0 = 0) by reflexivity.
  pose proof (configuration_frozen square_canvas no_overrides 2 0 square_rect steady
                [Resize square_rect; Frame 16] steady) as A.
  pose proof (configuration_frozen square_canvas no_overrides 0 0 square_rect steady
                [Resize square_rect; Frame 16] steady) as B.
  split.
  - split; [ exact H2 | ].
    destruct (construct (Some square_canvas) no_overrides 2 0 square_rect steady)
      as [[f | e] g1]; [ | exact A ].
    destruct A as (_ & _ & _ & Hd & _). exact (Hd H2).
  - split; [ exact H0 | ].
    destruct (construct (Some square_canvas) no_overrides 0 0 square_rect steady)
      as [[f | e] g1]; [ | exact B ].
    destruct B as (_ & _ & _ & _ & Hd). exact (Hd H0).
Defined.

Lemma Forall2_same_identity_refl (bs : list Bubble) : Forall2 same_identity bs bs.
Proof.
  induction bs as [ | b rest IH ]; constructor;
    [ apply same_identity_refl | exact IH ].
Qed.

Lemma Forall2_same_identity_trans (l1 l2 l3 : list Bubble) :
  Forall2 same_identity l1 l2 -> Forall2 same_identity l2 l3 ->
  Forall2 same_identity l1 l3.
Proof.
  intros H12. revert l3. induction H12 as [ | a b l l' Hab _ IH ]; intros l3 H23.
  - inversion H23; subst. constructor.
  - inversion H23 as [ | b' c' m m' Hbc Hrest ]; subst. constructor.
    + apply same_identity_trans with (1 := Hab). exact Hbc.
    + apply IH. exact Hrest.
Qed.

Lemma step_same_identity (e : Event) (f : BreathBubbles) (g : Entropy) :
  Forall2 same_identity (bubbles f) (bubbles (fst (fst (step e f g)))).
Proof.
  destruct e; cbn; try apply Forall2_same_identity_refl.
  - rewrite frame_bubbles. apply for_each_Forall2.
    intros b g1. apply update_identity.
  - destruct visible; apply Forall2_same_identity_refl.
Qed.

(** X6. Particles keep their place in the list and their identity for
    the life of the field: after any sequence of frames and events, the
    particle at each index has the base radius, hue, velocities and
    wobble seed it had before. *)
Theorem run_keeps_identity (es : list Event) (f : BreathBubbles) (g : Entropy) :
  Forall2 same_identity (bubbles f) (bubbles (fst (fst (run es f g)))).
Proof.
  revert f g. induction es as [ | e rest IH ]; intros f g; cbn.
  - apply Forall2_same_identity_refl.
  - unfold bind, ret. pose proof (step_same_identity e f g) as Hs.
    destruct (step e f g) as [p g1]. cbn [fst] in Hs.
    specialize (IH (fst p) g1). destruct (run rest (fst p) g1) as [q g2].
    cbn [fst] in *. apply Forall2_same_identity_trans with (1 := Hs). exact IH.
Qed.

Lemma Forall2_transfer (P Q : Bubble -> Prop) (T : Bubble -> Bubble -> Prop)
    (l l' : list Bubble) :
  (forall a b, P a -> T a b -> Q b) ->
  Forall P l -> Forall2 T l l' -> Forall Q l'.
Proof.
  intros HT HP H2. induction H2 as [ | a b m m' Hab _ IH ].
  - constructor.
  - inversion HP; subst. constructor; [ now apply (HT a b) | now apply IH ].
Qed.

(** X7. For a field constructed with draws in [0, 1) and a radius
    range [0 <= minRadius <= maxRadius], after any sequence of frames
    and events every base radius is still within the range, and every
    frame leaves every current radius between [0.82 * minRadius] and
    [1.18 * maxRadius]. *)
Theorem constructed_radius_invariant (c : Canvas) (opts : Overrides) (d now : R)
    (rect : DOMRect) (g : Entropy) (es : list Event) (g' : Entropy)
    (later : R) (g'' : Entropy) :
  let o := Object_assign defaults opts in
  unit_interval g ->
  0 <= minRadius o ->
  minRadius o <= maxRadius o ->
  match construct (Some c) opts d now rect g with
  | (Normal f, _) =>
      let f1 := fst (fst (run es f g')) in
      Forall (fun b => minRadius o <= baseR b <= maxRadius o) (bubbles f1) /\
      Forall (fun b => 0.82 * minRadius o <= r b <= 1.18 * maxRadius o)
             (bubbles (fst (fst (frame later f1 g''))))
  | (Throw _, _) => False
  end.
Proof.
  intros o Hg H0 Hr.
  destruct (construct_fields c opts d now rect g) as (f & Hf & Ho & _ & _ & _ & _ & Hb).
  rewrite Hf. cbn zeta. fold o in Ho. rewrite Ho in Hb.
  assert (H1 : Forall (fun b => minRadius o <= baseR b <= maxRadius o)
                 (bubbles (fst (fst (run es f g'))))).
  { apply (run_base_radius (fun v => minRadius o <= v <= maxRadius o)).
    apply Hb; assumption. }
  split; [ exact H1 | ].
  set (f1 := fst (fst (run es f g'))) in *.
  pose proof (breath_range (options f1) (later - t0 f1)) as Hbr.
  apply (Forall2_transfer
           (fun b => minRadius o <= baseR b <= maxRadius o)
           (fun b => 0.82 * minRadius o <= r b <= 1.18 * maxRadius o)
           (fun a b => baseR b = baseR a /\
                       r b = baseR a * (0.82 + breath_at (options f1) (later - t0 f1) * 0.36))
           (bubbles f1) (bubbles (fst (fst (frame later f1 g''))))).
  - intros a b Ha [_ Hrb]. rewrite Hrb. nra.
  - exact H1.
  - apply radius_update_of_frame.
Qed.

Lemma constructed_radius_invariant_witness :
  unit_interval steady /\
  0 <= minRadius (Object_assign defaults no_overrides) /\
  minRadius (Object_assign defaults no_overrides)
    <= maxRadius (Object_assign defaults no_overrides) /\
  match construct (Some square_canvas) no_overrides 1 0 square_rect steady with
  | (Normal f, _) =>
      Forall (fun b => 0.82 * 14 <= r b <= 1.18 * 64)
             (bubbles (fst (fst (frame 16 (fst (fst (run [Frame 0] f steady))) steady))))
  | (Throw _, _) => False
  end.
Proof.
  assert (H0 : 0 <= minRadius (Object_assign defaults no_overrides)) by (cbn -[IZR]; lra).
  assert (Hr : minRadius (Object_assign defaults no_overrides)
               <= maxRadius (Object_assign defaults no_overrides)) by (cbn -[IZR]; lra).
  split; [ exact steady_unit_interval | ]. split; [ exact H0 | ]. split; [ exact Hr | ].
  pose proof (constructed_radius_invariant square_canvas no_overrides 1 0 square_rect
                steady [Frame 0] steady 16 steady steady_unit_interval H0 Hr) as H.
  destruct (construct (Some square_canvas) no_overrides 1 0 square_rect steady)
    as [[f | e] g1]; [ exact (proj2 H) | exact H ].
Defined.

(** ** The trace of a frame *)

Lemma frame_trace (now : R) (f : BreathBubbles) (g : Entropy) :
  let f' := fst (fst (frame now f g)) in
  snd (fst (frame now f g)) =
  ClearRect 0 0 (canvas_width (canvas f)) (canvas_height (canvas f))
  :: LineWidth (1 * dpr f)
  :: connections f' (bubbles f') ++ flat_map (draw f') (bubbles f').
Proof.
  unfold frame, bind, ret.
  destruct (for_each _ (bubbles f) g) as [bs g1]. reflexivity.
Qed.

Lemma connections_Forall (P : Cmd -> Prop) (f : BreathBubbles) :
  (forall b1 b2, Forall P (connect f b1 b2)) ->
  forall bs, Forall P (connections f bs).
Proof.
  intros HP bs. induction bs as [ | b1 rest IH ]; cbn.
  - constructor.
  - apply Forall_app. split; [ | exact IH ].
    apply Forall_flat_map. apply Forall_forall. intros b2 _. apply HP.
Qed.

Lemma connect_no_radius (f : BreathBubbles) (b1 b2 : Bubble) :
  Forall radii_nonneg (connect f b1 b2).
Proof.
  unfold connect.
  match goal with |- context [Rlt_dec ?u ?v] => destruct (Rlt_dec u v) end;
    repeat constructor.
Qed.

Lemma frame_radius_nonneg (now : R) (f : BreathBubbles) (g : Entropy) :
  Forall (fun b => 0 <= baseR b) (bubbles f) ->
  Forall (fun b => 0 <= r b) (bubbles (fst (fst (frame now f g)))).
Proof.
  intros HB. pose proof (breath_range (options f) (now - t0 f)) as Hbr.
  apply (Forall2_transfer
           (fun b => 0 <= baseR b) (fun b => 0 <= r b)
           (fun a b => baseR b = baseR a /\
                       r b = baseR a * (0.82 + breath_at (options f) (now - t0 f) * 0.36))
           (bubbles f) (bubbles (fst (fst (frame now f g))))).
  - intros a b Ha [_ Hrb]. rewrite Hrb. nra.
  - exact HB.
  - apply radius_update_of_frame.
Qed.

(** X8. In a frame over particles of non-negative base radius, no
    negative radius reaches the context: every arc drawn and both circles
    of every gradient built (lines 138 and 145) have a radius of at least
    0. *)
Theorem frame_radii_nonneg (now : R) (f : BreathBubbles) (g : Entropy) :
  Forall (fun b => 0 <= baseR b) (bubbles f) ->
  Forall radii_nonneg (snd (fst (frame now f g))).
Proof.
  intros HB. pose proof (frame_radius_nonneg now f g HB) as HR.
  rewrite frame_trace. cbn zeta.
  set (f' := fst (fst (frame now f g))) in *.
  constructor; [ exact I | ]. constructor; [ exact I | ].
  apply Forall_app. split.
  - apply connections_Forall. apply connect_no_radius.
  - apply Forall_flat_map. apply Forall_impl with (2 := HR).
    intros b Hb. unfold draw.
    repeat (apply Forall_cons; [ cbn [radii_nonneg g_r0 g_r1]; try exact I | ]);
      [ lra | lra | constructor ].
Qed.

Lemma frame_radii_nonneg_witness :
  Forall (fun b => 0 <= baseR b) (bubbles (with_bubbles [sample_bubble] sample_field)) /\
  forall g : Entropy,
    Forall radii_nonneg
           (snd (fst (frame 0 (with_bubbles [sample_bubble] sample_field) g))).
Proof.
  assert (H : Forall (fun b => 0 <= baseR b)
                (bubbles (with_bubbles [sample_bubble] sample_field))).
  { constructor; [ cbn -[IZR]; lra | constructor ]. }
  split; [ exact H | ]. intros g.
  exact (frame_radii_nonneg 0 (with_bubbles [sample_bubble] sample_field) g H).
Defined.

Lemma connect_no_arc (f : BreathBubbles) (b1 b2 : Bubble) :
  filter is_arc (connect f b1 b2) = [].
Proof.
  unfold connect.
  match goal with |- context [Rlt_dec ?u ?v] => destruct (Rlt_dec u v) end;
    reflexivity.
Qed.

Lemma connections_no_arc (f : BreathBubbles) (bs : list Bubble) :
  filter is_arc (connections f bs) = [].
Proof.
  induction bs as [ | b1 rest IH ]; cbn; [ reflexivity | ].
  rewrite filter_app, IH, app_nil_r.
  induction rest as [ | b2 more IHm ]; cbn; [ reflexivity | ].
  rewrite filter_app, connect_no_arc. cbn. apply IHm.
  clear IHm. cbn in IH. rewrite filter_app in IH.
  destruct (app_eq_nil _ _ IH) as [_ H]. exact H.
Qed.

Lemma draw_arcs (f : BreathBubbles) (bs : list Bubble) :
  filter is_arc (flat_map (draw f) bs)
  = map (fun b => Arc (x b) (y b) (r b) 0 (PI * 2)) bs.
Proof.
  induction bs as [ | b rest IH ]; cbn; [ reflexivity | ].
  f_equal. exact IH.
Qed.

(** X9. A frame starts by clearing the whole canvas and then paints
    each particle exactly once, in list order, as a full circle at the
    position and with the radius the update of this same frame gave it
    (lines 81 and 137-146). *)
Theorem frame_paints_each_once (now : R) (f : BreathBubbles) (g : Entropy) :
  let f' := fst (fst (frame now f g)) in
  let trace := snd (fst (frame now f g)) in
  hd_error trace
    = Some (ClearRect 0 0 (canvas_width (canvas f)) (canvas_height (canvas f))) /\
  filter is_arc trace
    = map (fun b => Arc (x b) (y b) (r b) 0 (PI * 2)) (bubbles f') /\
  length (filter is_arc trace) = length (bubbles f).
Proof.
  intros f' trace. subst trace. rewrite frame_trace. cbn zeta. fold f'.
  split; [ reflexivity | ].
  assert (E : filter is_arc
                (ClearRect 0 0 (canvas_width (canvas f)) (canvas_height (canvas f))
                 :: LineWidth (1 * dpr f)
                 :: connections f' (bubbles f') ++ flat_map (draw f') (bubbles f'))
              = map (fun b => Arc (x b) (y b) (r b) 0 (PI * 2)) (bubbles f')).
  { cbn [filter is_arc]. rewrite filter_app, connections_no_arc, draw_arcs.
    reflexivity. }
  split; [ exact E | ].
  rewrite E, length_map. unfold f'. rewrite frame_bubbles. apply for_each_length.
Qed.

Lemma unit_falloff (d D : R) : 0 <= d < D -> 0 < 1 - d / D <= 1.
Proof.
  intros [H0 H1]. assert (HD : 0 < D) by lra.
  assert (Hq : 0 <= d / D < 1).
  { split.
    - apply Rmult_le_pos; [ exact H0 | ]. left. now apply Rinv_0_lt_compat.
    - apply (Rmult_lt_reg_r D); [ exact HD | ].
      unfold Rdiv. rewrite Rmult_assoc, Rinv_l by lra. lra. }
  lra.
Qed.

(** X10. Every line joining two particles (lines 125-127) is stroked
    with an opacity above 0 and of at most 0.12. *)
Theorem connection_opacity (f : BreathBubbles) (bs : list Bubble) :
  Forall (stroke_alpha_within 0.12) (connections f bs).
Proof.
  apply connections_Forall. intros b1 b2. unfold connect.
  match goal with |- context [Rlt_dec ?u ?v] => destruct (Rlt_dec u v) as [ Hlt | _ ] end;
    [ | constructor ].
  constructor; [ | repeat constructor ].
  cbn [stroke_alpha_within hsla_a].
  pose proof (hypot_nonneg (x b1 - x b2) (y b1 - y b2)) as H0.
  pose proof (unit_falloff _ _ (conj H0 Hlt)) as Hf. lra.
Qed.

Lemma connect_lines (f : BreathBubbles) (b1 : Bubble) (rest : list Bubble) :
  (length (filter is_line_start (flat_map (connect f b1) rest)) <= length rest)%nat.
Proof.
  induction rest as [ | b2 more IH ]; cbn; [ lia | ].
  rewrite filter_app, length_app.
  assert (H : (length (filter is_line_start (connect f b1 b2)) <= 1)%nat).
  { unfold connect.
    match goal with |- context [Rlt_dec ?u ?v] => destruct (Rlt_dec u v) end;
      cbn; lia. }
  lia.
Qed.

(** X11. The connection pass (lines 118-134) draws at most one line
    per unordered pair of particles, so at most n (n - 1) / 2 lines for n
    particles, and none for a field of fewer than two. *)
Theorem connection_count (f : BreathBubbles) (bs : list Bubble) :
  (2 * length (filter is_line_start (connections f bs))
   <= length bs * (length bs - 1))%nat /\
  ((length bs < 2)%nat -> connections f bs = []).
Proof.
  split.
  - induction bs as [ | b1 rest IH ]; cbn [connections length]; [ cbn; lia | ].
    rewrite filter_app, length_app.
    pose proof (connect_lines f b1 rest) as H1.
    replace (S (length rest) - 1)%nat with (length rest) by lia.
    destruct (length rest) as [ | m ] eqn:E; [ cbn in *; lia | ].
    replace (S m - 1)%nat with m in IH by lia. nia.
  - intros Hn. destruct bs as [ | b1 [ | b2 rest ] ]; cbn in Hn; try lia; reflexivity.
Qed.

Lemma connection_count_witness :
  (length [sample_bubble] < 2)%nat /\ connections sample_field [sample_bubble] = [].
Proof.
  assert (H : (length [sample_bubble] < 2)%nat) by (cbn; lia).
  split; [ exact H | ].
  exact (proj2 (connection_count sample_field [sample_bubble]) H).
Defined.

(** X12. Whether two particles are joined, and with what colour and
    opacity, does not depend on which of the two comes first in the
    list. *)
Theorem connection_symmetric (f : BreathBubbles) (b1 b2 : Bubble) :
  hd_error (connect f b1 b2) = hd_error (connect f b2 b1) /\
  length (connect f b1 b2) = length (connect f b2 b1).
Proof.
  assert (Hd : Math_hypot (x b1 - x b2) (y b1 - y b2)
               = Math_hypot (x b2 - x b1) (y b2 - y b1)).
  { unfold Math_hypot. f_equal. ring. }
  unfold connect. rewrite Hd.
  match goal with |- context [Rlt_dec ?u ?v] => destruct (Rlt_dec u v) end.
  - split; [ | reflexivity ].
    cbn. do 2 f_equal. f_equal. lra.
  - split; reflexivity.
Qed.

(** ** The pointer, again *)

(** X13. The interaction step leaves a particle exactly as it is when
    no pointer is active, when the particle is at [180 * dpr] or more
    from the pointer (the radius itself is outside), and when the
    particle sits exactly on the pointer, where the offset it would be
    pushed along is zero. *)
Theorem interact_leaves_alone (f : BreathBubbles) (b : Bubble) :
  mouse_active (mouse f) = false \/
  180 * dpr f <= pointer_distance f b \/
  (x b = mouse_x (mouse f) /\ y b = mouse_y (mouse f)) ->
  interact f b = b.
Proof.
  intros [ Hm | [ Hd | [Hx Hy] ] ].
  - apply interact_inactive. exact Hm.
  - unfold interact. destruct (mouse_active (mouse f)); [ | reflexivity ].
    fold (pointer_distance f b).
    destruct (Rlt_dec (pointer_distance f b) (180 * dpr f)); [ lra | reflexivity ].
  - unfold interact. destruct (mouse_active (mouse f)); [ | reflexivity ].
    match goal with |- context [Rlt_dec ?u ?v] => destruct (Rlt_dec u v) end;
      [ | reflexivity ].
    rewrite <- Hx, <- Hy. destruct b as [bx by_ br bb bh bvy bvx bw].
    unfold with_x, with_y. cbn [x y r baseR hue vy vx wobbleSeed].
    f_equal; ring.
Qed.

Lemma interact_leaves_alone_witness :
  (mouse_active (mouse pointer_field) = false \/
   180 * dpr pointer_field <= pointer_distance pointer_field under_pointer \/
   (x under_pointer = mouse_x (mouse pointer_field) /\
    y under_pointer = mouse_y (mouse pointer_field))) /\
  interact pointer_field under_pointer = under_pointer.
Proof.
  assert (H : mouse_active (mouse pointer_field) = false \/
              180 * dpr pointer_field <= pointer_distance pointer_field under_pointer \/
              (x under_pointer = mouse_x (mouse pointer_field) /\
               y under_pointer = mouse_y (mouse pointer_field))).
  { right. right. split; reflexivity. }
  split; [ exact H | exact (interact_leaves_alone pointer_field under_pointer H) ].
Defined.

(** X14. For an active pointer, a non-negative [interactiveForce] and a
    particle inside the radius, one tick pushes the particle by at most
    [45 * dpr * interactiveForce] (the push is largest half way out), and
    by at most [interactiveForce] times what is left to the edge of the
    radius, so the push fades to nothing at the edge. *)
Theorem displacement_bounded (f : BreathBubbles) (b : Bubble) :
  mouse_active (mouse f) = true ->
  0 <= interactiveForce (options f) ->
  pointer_distance f b < 180 * dpr f ->
  displacement f b <= 45 * dpr f * interactiveForce (options f) /\
  displacement f b
    <= interactiveForce (options f) * (180 * dpr f - pointer_distance f b).
Proof.
  intros Ha HF Hd.
  pose proof (hypot_nonneg (x b - mouse_x (mouse f)) (y b - mouse_y (mouse f))) as H0.
  fold (pointer_distance f b) in H0.
  rewrite (displacement_in_range f b Ha Hd). unfold force_at.
  set (d := pointer_distance f b) in *. set (D := 180 * dpr f) in *.
  set (F := interactiveForce (options f)) in *.
  replace (45 * dpr f) with (D / 4) by (unfold D; lra).
  clearbody d D F.
  pose proof (unit_falloff d D (conj H0 Hd)) as Hq.
  assert (HD : 0 < D) by lra.
  assert (Ed : d = d / D * D) by (field; lra).
  set (q := d / D) in *. clearbody q. subst d.
  assert (HFD : 0 <= F * D) by (apply Rmult_le_pos; lra).
  rewrite Rabs_pos_eq by (apply Rmult_le_pos; lra).
  pose proof (Rle_0_sqr (q - 1 / 2)) as S1. unfold Rsqr in S1.
  pose proof (Rle_0_sqr (1 - q)) as S2. unfold Rsqr in S2.
  pose proof (Rmult_le_pos _ _ HFD S1) as P1.
  pose proof (Rmult_le_pos _ _ HFD S2) as P2.
  split; lra.
Qed.

Lemma displacement_bounded_witness :
  mouse_active (mouse pointer_field) = true /\
  0 <= interactiveForce (options pointer_field) /\
  pointer_distance pointer_field far_bubble < 180 * dpr pointer_field /\
  displacement pointer_field far_bubble
    <= 45 * dpr pointer_field * interactiveForce (options pointer_field).
Proof.
  assert (Ha : mouse_active (mouse pointer_field) = true) by reflexivity.
  assert (HF : 0 <= interactiveForce (options pointer_field)) by by_evaluation.
  assert (Hd : pointer_distance pointer_field far_bubble < 180 * dpr pointer_field).
  { rewrite far_bubble_distance. by_evaluation. }
  split; [ exact Ha | ]. split; [ exact HF | ]. split; [ exact Hd | ].
  exact (proj1 (displacement_bounded pointer_field far_bubble Ha HF Hd)).
Defined.

Lemma for_each_ext (body1 body2 : Bubble -> Rand Bubble) :
  (forall b g, body1 b g = body2 b g) ->
  forall bs g, for_each body1 bs g = for_each body2 bs g.
Proof.
  intros HE bs. induction bs as [ | b rest IH ]; intros g; cbn; [ reflexivity | ].
  unfold bind. rewrite HE. destruct (body2 b g) as [b' g1]. rewrite IH. reflexivity.
Qed.

Lemma connections_ext (f1 f2 : BreathBubbles) (bs : list Bubble) :
  options f1 = options f2 -> dpr f1 = dpr f2 ->
  connections f1 bs = connections f2 bs.
Proof.
  intros Ho Hd. induction bs as [ | b1 rest IH ]; cbn; [ reflexivity | ].
  rewrite IH. f_equal. apply flat_map_ext. intros b2.
  unfold connect. rewrite Ho, Hd. reflexivity.
Qed.

Lemma frame_idle_pointer (now : R) (f : BreathBubbles) (m : Mouse) (g : Entropy) :
  mouse_active (mouse f) = false ->
  mouse_active m = false ->
  bubbles (fst (fst (frame now (with_mouse m f) g))) = bubbles (fst (fst (frame now f g))) /\
  snd (fst (frame now (with_mouse m f) g)) = snd (fst (frame now f g)) /\
  snd (frame now (with_mouse m f) g) = snd (frame now f g).
Proof.
  intros Hf Hm.
  assert (HE : for_each (update (with_mouse m f) (now - t0 f)
                           (breath_at (options f) (now - t0 f))) (bubbles f) g
               = for_each (update f (now - t0 f)
                             (breath_at (options f) (now - t0 f))) (bubbles f) g).
  { apply for_each_ext. intros b g1. rewrite !update_unfold. cbn zeta.
    rewrite !interact_inactive by assumption. reflexivity. }
  unfold frame, bind, ret.
  change (t0 (with_mouse m f)) with (t0 f).
  change (options (with_mouse m f)) with (options f).
  change (bubbles (with_mouse m f)) with (bubbles f).
  rewrite HE. clear HE.
  destruct (for_each (update f (now - t0 f) (breath_at (options f) (now - t0 f)))
              (bubbles f) g) as [bs g1].
  cbn [fst snd bubbles with_bubbles].
  split; [ reflexivity | ]. split; [ | reflexivity ].
  f_equal. f_equal. f_equal.
  apply connections_ext; reflexivity.
Qed.

(** X15. A pointer that came and left is forgotten: on a field whose
    pointer was idle, a move of the pointer followed by its leaving and
    then a frame gives the same particles, the same trace and the same
    use of the random supply as the frame alone (the coordinates kept by
    the handler of line 42 are never read). *)
Theorem pointer_leave_forgets (cx cy now : R) (rect : DOMRect) (f : BreathBubbles)
    (g : Entropy) :
  mouse_active (mouse f) = false ->
  let visited := run [PointerMove cx cy rect; PointerLeave; Frame now] f g in
  let alone := run [Frame now] f g in
  bubbles (fst (fst visited)) = bubbles (fst (fst alone)) /\
  snd (fst visited) = snd (fst alone) /\
  snd visited = snd alone.
Proof.
  intros Hf visited alone. subst visited alone.
  set (m := {| mouse_x := (cx - rect_left rect) * dpr f;
               mouse_y := (cy - rect_top rect) * dpr f;
               mouse_active := false |}).
  destruct (frame_idle_pointer now f m g Hf eq_refl) as (Hb & Ht & Hg).
  assert (Hv : run [PointerMove cx cy rect; PointerLeave; Frame now] f g
               = (fst (fst (frame now (with_mouse m f) g)),
                  snd (fst (frame now (with_mouse m f) g)) ++ [],
                  snd (frame now (with_mouse m f) g))).
  { cbn [run step]. unfold bind, ret. cbn [fst snd app].
    change (on_pointerleave (on_pointermove cx cy rect f)) with (with_mouse m f).
    destruct (frame now (with_mouse m f) g) as [[f1 tr] g1]. reflexivity. }
  assert (Ha : run [Frame now] f g
               = (fst (fst (frame now f g)),
                  snd (fst (frame now f g)) ++ [],
                  snd (frame now f g))).
  { cbn [run step]. unfold bind, ret.
    destruct (frame now f g) as [[f1 tr] g1]. reflexivity. }
  rewrite Hv, Ha. cbn [fst snd]. rewrite Hb, Ht, Hg. repeat split.
Qed.

Lemma pointer_leave_forgets_witness :
  mouse_active (mouse sample_field) = false /\
  forall g : Entropy,
    snd (fst (run [PointerMove 10 10 square_rect; PointerLeave; Frame 0] sample_field g))
    = snd (fst (run [Frame 0] sample_field g)).
Proof.
  assert (H : mouse_active (mouse sample_field) = false) by reflexivity.
  split; [ exact H | ]. intros g.
  exact (proj1 (proj2 (pointer_leave_forgets 10 10 0 square_rect sample_field g H))).
Defined.

(** ** Time, motion and the edges, again *)

(** X16. Becoming visible restarts the breathing (line 45): in a frame
    [dt] after the page became visible again every radius is set from the
    breath at elapsed time [dt], whatever the time origin was before; in
    a frame at that very instant every particle is at its base radius.
    Becoming hidden changes nothing. *)
Theorem visibility_rebaselines (f : BreathBubbles) (now dt : R) (g : Entropy) :
  let f1 := on_visibilitychange true now f in
  Forall2 (fun b b' => r b' = baseR b * (0.82 + breath_at (options f) dt * 0.36))
          (bubbles f) (bubbles (fst (fst (frame (now + dt) f1 g)))) /\
  Forall2 (fun b b' => r b' = baseR b)
          (bubbles f) (bubbles (fst (fst (frame now f1 g)))) /\
  on_visibilitychange false now f = f.
Proof.
  intros f1. split; [ | split; [ | reflexivity ] ].
  - apply Forall2_impl with (2 := radius_update_of_frame (now + dt) f1 g).
    intros b b' [_ Hr]. rewrite Hr.
    change (t0 f1) with now. change (options f1) with (options f).
    replace (now + dt - now) with dt by ring. reflexivity.
  - apply Forall2_impl with (2 := radius_update_of_frame now f1 g).
    intros b b' [_ Hr]. rewrite Hr.
    change (t0 f1) with now. change (options f1) with (options f).
    replace (now - now) with 0 by ring. rewrite breath_at_origin. lra.
Qed.

(** X17. The motion of a tick (lines 92-93) moves a particle
    vertically by between 0.6 and 1.4 times its vertical speed, upward
    when [vy] is not positive, and horizontally by its [vx] give or take
    at most the wobble strength. *)
Theorem motion_bounds (o : Options) (t : R) (b : Bubble) :
  let breath := breath_at o t in
  let b' := move o t breath (breathe breath b) in
  0.6 * Rabs (vy b) <= Rabs (y b' - y b) <= 1.4 * Rabs (vy b) /\
  (vy b <= 0 -> y b' <= y b) /\
  Rabs (x b' - x b - vx b) <= Rabs (wobbleStrength o).
Proof.
  intros breath b'. subst b'. pose proof (breath_range o t) as Hbr. fold breath in Hbr.
  cbn [move breathe with_x with_y with_r x y vy vx wobbleSeed].
  split; [ | split ].
  - replace (y b + vy b * (0.6 + breath * 0.8) - y b)
      with (vy b * (0.6 + breath * 0.8)) by ring.
    rewrite Rabs_mult. rewrite (Rabs_pos_eq (0.6 + breath * 0.8)) by lra.
    pose proof (Rabs_pos (vy b)). split; nra.
  - intros Hv. nra.
  - replace (x b + (vx b + sin ((t + wobbleSeed b) * 0.0018) * wobbleStrength o)
             - x b - vx b)
      with (sin ((t + wobbleSeed b) * 0.0018) * wobbleStrength o) by ring.
    rewrite Rabs_mult.
    assert (Hs : Rabs (sin ((t + wobbleSeed b) * 0.0018)) <= 1).
    { apply Rabs_le. apply SIN_bound. }
    pose proof (Rabs_pos (wobbleStrength o)). nra.
Qed.

Lemma motion_bounds_witness :
  vy sample_bubble <= 0 /\
  y (move defaults 0 (breath_at defaults 0) (breathe (breath_at defaults 0) sample_bubble))
  <= y sample_bubble.
Proof.
  assert (H : vy sample_bubble <= 0) by (cbn -[IZR]; lra).
  split; [ exact H | ].
  exact (proj1 (proj2 (motion_bounds defaults 0 sample_bubble)) H).
Defined.



Lemma update_draws (f : BreathBubbles) (now : R) (b : Bubble) (g : Entropy) (k : nat) :
  snd (update f (now - t0 f) (breath_at (options f) (now - t0 f)) b g) k
  = g (k + (if leaves_top f now b then 1 else 0))%nat.
Proof.
  rewrite update_unfold. cbn zeta. cbn [snd]. rewrite recycle_unfold.
  unfold leaves_top. cbn zeta.
  match goal with |- context [Rlt_dec ?u ?v] => destruct (Rlt_dec u v) end; cbn [snd].
  - f_equal. lia.
  - f_equal. lia.
Qed.

Lemma for_each_draws (f : BreathBubbles) (now : R) (bs : list Bubble) :
  forall g k,
    snd (for_each (update f (now - t0 f) (breath_at (options f) (now - t0 f))) bs g) k
    = g (k + length (filter (leaves_top f now) bs))%nat.
Proof.
  induction bs as [ | b rest IH ]; intros g k; cbn [for_each filter].
  - cbn. f_equal. lia.
  - unfold bind, ret. pose proof (update_draws f now b g) as Hu.
    destruct (update f (now - t0 f) (breath_at (options f) (now - t0 f)) b g)
      as [b' g1]. cbn [snd] in Hu.
    specialize (IH g1). 
    destruct (for_each (update f (now - t0 f) (breath_at (options f) (now - t0 f)))
                rest g1) as [rest' g2]. cbn [snd] in *.
    rewrite IH, Hu. destruct (leaves_top f now b); cbn [length]; f_equal; lia.
Qed.

(** X19. A frame takes one random draw for each particle it recycles
    at the top and no other: the supply moves on by the number of
    particles whose motion of this frame takes them above the top edge,
    and not at all when there is none. *)
Theorem frame_draws_per_recycle (now : R) (f : BreathBubbles) (g : Entropy) :
  (forall k, snd (frame now f g) k
             = g (k + length (filter (leaves_top f now) (bubbles f)))%nat) /\
  (Forall (fun b => leaves_top f now b = false) (bubbles f) ->
   forall k, snd (frame now f g) k = g k).
Proof.
  assert (H : forall k, snd (frame now f g) k
                        = g (k + length (filter (leaves_top f now) (bubbles f)))%nat).
  { intros k. rewrite <- for_each_draws. unfold frame, bind, ret.
    destruct (for_each _ (bubbles f) g) as [bs g1]. reflexivity. }
  split; [ exact H | ]. intros Hn k. rewrite H. f_equal. clear H.
  assert (E : filter (leaves_top f now) (bubbles f) = []).
  { induction Hn as [ | b rest Hb _ IH ]; cbn; [ reflexivity | ].
    rewrite Hb. exact IH. }
  rewrite E. cbn. lia.
Qed.

Lemma sample_bubble_stays :
  leaves_top (with_bubbles [sample_bubble] sample_field) 0 sample_bubble = false.
Proof.
  unfold leaves_top. cbn zeta.
  match goal with |- context [Rlt_dec ?u ?v] => destruct (Rlt_dec u v) as [ H | _ ] end;
    [ exfalso | reflexivity ].
  revert H.
  change (t0 (with_bubbles [sample_bubble] sample_field)) with 0.
  replace (0 - 0) with 0 by ring. rewrite breath_at_origin.
  cbn -[IZR sin]. 
  pose proof (SIN_bound ((0 + 500) * 0.0018)) as Hs. lra.
Qed.

Lemma frame_draws_per_recycle_witness :
  Forall (fun b => leaves_top (with_bubbles [sample_bubble] sample_field) 0 b = false)
         (bubbles (with_bubbles [sample_bubble] sample_field)) /\
  forall k, snd (frame 0 (with_bubbles [sample_bubble] sample_field) steady) k = steady k.
Proof.
  assert (H : Forall (fun b => leaves_top (with_bubbles [sample_bubble] sample_field) 0 b
                               = false)
                (bubbles (with_bubbles [sample_bubble] sample_field))).
  { constructor; [ exact sample_bubble_stays | constructor ]. }
  split; [ exact H | ].
  exact (proj2 (frame_draws_per_recycle 0 (with_bubbles [sample_bubble] sample_field)
                  steady) H).
Defined.

(** X20. A recycled particle (lines 96-99) of non-negative radius, for
    a draw in [0, 1), restarts with its whole disc at or below the bottom
    edge of the canvas, horizontally on the canvas so that the wrap check
    which follows leaves it alone, and it is not recycled again by a
    second look of the same test. *)
Theorem recycle_lands_below (c : Canvas) (b : Bubble) (g : Entropy) :
  y b + r b < 0 ->
  0 <= r b ->
  0 <= g 0%nat < 1 ->
  let b' := fst (recycle c b g) in
  y b' - r b' >= canvas_height c /\
  wrap c b' = b' /\
  fst (recycle c b' (snd (recycle c b g))) = b'.
Proof.
  intros Hy Hr Hu b'. subst b'.
  pose proof (canvas_width_nonneg c) as Hw.
  pose proof (canvas_height_nonneg c) as Hh.
  rewrite (recycle_unfold c b g).
  destruct (Rlt_dec (y b + r b) 0) as [ _ | Hn ]; [ | contradiction ].
  cbn [fst snd]. split; [ cbn [x y r with_x with_y]; lra | ]. split.
  - unfold wrap. cbn [x y r with_x with_y].
    destruct (Rgt_dec (g 0%nat * canvas_width c - r b) (canvas_width c)) as [ H1 | _ ];
      [ exfalso; nra | ].
    destruct (Rlt_dec (g 0%nat * canvas_width c + r b) 0) as [ H2 | _ ];
      [ exfalso; nra | reflexivity ].
  - rewrite recycle_unfold. cbn [x y r with_x with_y].
    destruct (Rlt_dec (canvas_height c + r b * 2 + r b) 0) as [ H3 | _ ];
      [ exfalso; lra | reflexivity ].
Qed.

Lemma recycle_lands_below_witness :
  y above_canvas + r above_canvas < 0 /\
  0 <= r above_canvas /\
  0 <= steady 0%nat < 1 /\
  wrap square_canvas (fst (recycle square_canvas above_canvas steady))
  = fst (recycle square_canvas above_canvas steady).
Proof.
  assert (Hy : y above_canvas + r above_canvas < 0) by (cbn -[IZR]; lra).
  assert (Hr : 0 <= r above_canvas) by (cbn -[IZR]; lra).
  assert (Hu : 0 <= steady 0%nat < 1) by (unfold steady; lra).
  split; [ exact Hy | ]. split; [ exact Hr | ]. split; [ exact Hu | ].
  exact (proj1 (proj2 (recycle_lands_below square_canvas above_canvas steady Hy Hr Hu))).
Defined.

(** ** Start-up *)

(** X21. [initBreathBubbles] (lines 158-162) does nothing, and throws
    nothing, when the canvas element is missing, where the constructor
    called on the missing element would throw; with the element it
    builds a field with the default options, 42 particles, an idle
    pointer and the current time as origin. *)
Theorem initBreathBubbles_guard (d now : R) (rect : DOMRect) (g : Entropy) :
  initBreathBubbles None d now rect g = (None, g) /\
  construct None no_overrides d now rect g = (Throw TypeError, g) /\
  forall c, exists f,
    fst (initBreathBubbles (Some c) d now rect g) = Some f /\
    options f = defaults /\
    length (bubbles f) = 42%nat /\
    mouse_active (mouse f) = false /\
    t0 f = now.
Proof.
  split; [ reflexivity | ]. split; [ reflexivity | ]. intros c.
  unfold initBreathBubbles, bind, ret. rewrite construct_some. cbn zeta.
  match goal with |- context [init ?f0 g] => set (f1 := init f0 g) end.
  exists (fst f1). split; [ destruct f1; reflexivity | ].
  subst f1. rewrite init_unfold. cbn [fst].
  split; [ reflexivity | ]. split; [ | split; reflexivity ].
  cbn [bubbles with_bubbles]. rewrite init_loop_length. reflexivity.
Qed.

(** ** Resizing, idle events, the gradient and the breath *)

Lemma update_contained (f : BreathBubbles) (t breath : R) (b : Bubble) (g : Entropy) :
  mouse_active (mouse f) = false ->
  0 <= baseR b ->
  0 <= breath <= 1 ->
  contained (canvas f) (fst (update f t breath b g)).
Proof.
  intros Hm Hb Hbr.
  pose proof (canvas_width_nonneg (canvas f)) as Hw.
  pose proof (canvas_height_nonneg (canvas f)) as Hh.
  rewrite update_unfold. cbn [fst snd].
  rewrite interact_inactive by exact Hm.
  set (bm := move (options f) t breath (breathe breath b)).
  assert (Hrm : r bm = baseR b * (0.82 + breath * 0.36)) by reflexivity.
  assert (Hr0 : 0 <= r bm) by (rewrite Hrm; nra).
  rewrite recycle_unfold. unfold contained.
  destruct (Rlt_dec (y bm + r bm) 0) as [ Hlt | Hge ]; cbn [fst]; unfold wrap;
    match goal with |- context [Rgt_dec ?u ?v] => destruct (Rgt_dec u v) as [ H1 | H1 ] end;
    try match goal with |- context [Rlt_dec ?u ?v] => destruct (Rlt_dec u v) as [ H2 | H2 ] end;
    cbn in *; lra.
Qed.

(** X22. The field takes a resize in its stride: on a field with an
    idle pointer and particles of non-negative base radius, a resize to
    any rectangle followed by one frame leaves every particle touching
    the new canvas horizontally and not past its top, wherever the
    particles were on the old one. *)
Theorem resize_then_frame_contains (rect : DOMRect) (now : R) (f : BreathBubbles)
    (g : Entropy) :
  mouse_active (mouse f) = false ->
  Forall (fun b => 0 <= baseR b) (bubbles f) ->
  let f' := fst (fst (run [Resize rect; Frame now] f g)) in
  canvas f' = canvas (resize rect f) /\
  Forall (contained (canvas f')) (bubbles f').
Proof.
  intros Hm HB f'.
  assert (E : f' = fst (fst (frame now (resize rect f) g))).
  { subst f'. cbn [run step]. unfold bind, ret. cbn [fst snd].
    destruct (frame now (resize rect f) g) as [[f1 tr] g1]. reflexivity. }
  rewrite E. clear E f'.
  assert (Hc : canvas (fst (fst (frame now (resize rect f) g))) = canvas (resize rect f))
    by (rewrite frame_state; reflexivity).
  split; [ exact Hc | ]. rewrite Hc, frame_bubbles.
  pose proof (breath_range (options (resize rect f)) (now - t0 (resize rect f))) as Hbr.
  apply (Forall2_transfer (fun b => 0 <= baseR b) (contained (canvas (resize rect f)))
           (fun a b' => 0 <= baseR a -> contained (canvas (resize rect f)) b')
           (bubbles f)).
  - intros a b' Ha Hab. exact (Hab Ha).
  - exact HB.
  - change (bubbles (resize rect f)) with (bubbles f).
    apply for_each_Forall2. intros b g1 Hb.
    apply update_contained; [ exact Hm | exact Hb | exact Hbr ].
Qed.

Lemma resize_then_frame_contains_witness :
  mouse_active (mouse (with_bubbles [right_of_canvas] sample_field)) = false /\
  Forall (fun b => 0 <= baseR b) (bubbles (with_bubbles [right_of_canvas] sample_field)) /\
  forall g : Entropy,
    Forall (contained
              (canvas (fst (fst (run [Resize square_rect; Frame 0]
                                   (with_bubbles [right_of_canvas] sample_field) g)))))
           (bubbles (fst (fst (run [Resize square_rect; Frame 0]
                                 (with_bubbles [right_of_canvas] sample_field) g)))).
Proof.
  assert (Hm : mouse_active (mouse (with_bubbles [right_of_canvas] sample_field)) = false)
    by reflexivity.
  assert (HB : Forall (fun b => 0 <= baseR b)
                 (bubbles (with_bubbles [right_of_canvas] sample_field))).
  { constructor; [ cbn -[IZR]; lra | constructor ]. }
  split; [ exact Hm | ]. split; [ exact HB | ]. intros g.
  exact (proj2 (resize_then_frame_contains square_rect 0
                  (with_bubbles [right_of_canvas] sample_field) g Hm HB)).
Defined.

(** X23. Only frames move particles, draw and take random draws: a
    sequence of pointer, resize and visibility events with no frame in it
    leaves the particles as they are, records nothing on the context and
    leaves the random supply untouched. *)
Theorem idle_events_inert (es : list Event) (f : BreathBubbles) (g : Entropy) :
  Forall (fun e => is_frame e = false) es ->
  bubbles (fst (fst (run es f g))) = bubbles f /\
  snd (fst (run es f g)) = [] /\
  snd (run es f g) = g.
Proof.
  intros Hes. revert f g. induction Hes as [ | e rest He _ IH ]; intros f g.
  - repeat split.
  - cbn [run]. unfold bind, ret.
    assert (Hs : bubbles (fst (fst (step e f g))) = bubbles f /\
                 snd (fst (step e f g)) = [] /\ snd (step e f g) = g).
    { destruct e; cbn in He; try discriminate; cbn; repeat split.
      destruct visible; reflexivity. }
    destruct Hs as (Hb & Ht & Hg).
    destruct (step e f g) as [p g1]. cbn [fst snd] in Hb, Ht, Hg. subst g1.
    destruct (IH (fst p) g) as (Hb' & Ht' & Hg').
    destruct (run rest (fst p) g) as [q g2]. cbn [fst snd] in *.
    rewrite Ht, Ht'. repeat split; congruence.
Qed.

Lemma idle_events_inert_witness :
  Forall (fun e => is_frame e = false)
         [PointerMove 10 10 square_rect; Resize square_rect; PointerLeave;
          VisibilityChange true 5] /\
  forall g : Entropy,
    bubbles (fst (fst (run [PointerMove 10 10 square_rect; Resize square_rect;
                            PointerLeave; VisibilityChange true 5]
                           (with_bubbles [sample_bubble] sample_field) g)))
    = [sample_bubble].
Proof.
  assert (H : Forall (fun e => is_frame e = false)
                [PointerMove 10 10 square_rect; Resize square_rect; PointerLeave;
                 VisibilityChange true 5]).
  { repeat constructor. }
  split; [ exact H | ]. intros g.
  exact (proj1 (idle_events_inert _ (with_bubbles [sample_bubble] sample_field) g H)).
Defined.

Lemma hypot_highlight : Math_hypot 0.4 0.5 <= 0.65.
Proof.
  unfold Math_hypot. rewrite <- (sqrt_square 0.65) by lra.
  apply sqrt_le_1; lra.
Qed.

(** X24. The gradient of every particle of non-negative radius (lines
    138-141) is well formed: its start circle, the highlight, lies
    within its end circle, the disc of the particle, and its three stops
    are at offsets within [0, 1]. *)
Theorem draw_gradient_well_formed (f : BreathBubbles) (b : Bubble) :
  0 <= r b ->
  Forall fill_well_formed (draw f b) /\
  exists grd, hd_error (draw f b) = Some (FillStyle grd) /\ g_r1 grd = r b.
Proof.
  intros Hr. split.
  - unfold draw.
    repeat (apply Forall_cons; [ cbn [fill_well_formed]; try exact I | ]);
      [ | constructor ].
    unfold gradient_well_formed.
    cbn [g_x0 g_y0 g_r0 g_x1 g_y1 g_r1 g_stops]. split.
    + replace (x b - (x b - r b * 0.4)) with (r b * 0.4) by ring.
      replace (y b - (y b - r b * 0.5)) with (r b * 0.5) by ring.
      rewrite hypot_scale, Rabs_pos_eq by exact Hr.
      pose proof hypot_highlight as Hh. pose proof (hypot_nonneg 0.4 0.5) as H0. nra.
    + repeat constructor; cbn [fst]; lra.
  - eexists. split; [ reflexivity | reflexivity ].
Qed.

Lemma draw_gradient_well_formed_witness :
  0 <= r sample_bubble /\ Forall fill_well_formed (draw sample_field sample_bubble).
Proof.
  assert (H : 0 <= r sample_bubble) by (cbn -[IZR]; lra).
  split; [ exact H | exact (proj1 (draw_gradient_well_formed sample_field sample_bubble H)) ].
Defined.

(** X25. Over a period that is not 0 the breath (line 83) is at its
    middle, 1/2, at the start, full at a quarter of the period, back at
    1/2 at the half and empty at three quarters; half a period later it
    is always the mirror image, [1 - breath]. *)
Theorem breath_cycle (o : Options) (t : R) :
  breathingPeriod o <> 0 ->
  breath_at o 0 = 1 / 2 /\
  breath_at o (breathingPeriod o / 4) = 1 /\
  breath_at o (breathingPeriod o / 2) = 1 / 2 /\
  breath_at o (3 * breathingPeriod o / 4) = 0 /\
  breath_at o (t + breathingPeriod o / 2) = 1 - breath_at o t.
Proof.
  intros HP. split; [ apply breath_at_origin | ]. unfold breath_at.
  split; [ | split; [ | split ] ].
  - replace (breathingPeriod o / 4 / breathingPeriod o * PI * 2) with (PI / 2)
      by (field; exact HP).
    rewrite sin_PI2. lra.
  - replace (breathingPeriod o / 2 / breathingPeriod o * PI * 2) with PI
      by (field; exact HP).
    rewrite sin_PI. lra.
  - replace (3 * breathingPeriod o / 4 / breathingPeriod o * PI * 2) with (3 * (PI / 2))
      by (field; exact HP).
    rewrite sin_3PI2. lra.
  - replace ((t + breathingPeriod o / 2) / breathingPeriod o * PI * 2)
      with (t / breathingPeriod o * PI * 2 + PI) by (field; exact HP).
    rewrite neg_sin. lra.
Qed.

Lemma breath_cycle_witness :
  breathingPeriod defaults <> 0 /\ breath_at defaults (breathingPeriod defaults / 4) = 1.
Proof.
  assert (H : breathingPeriod defaults <> 0) by (cbn -[IZR]; lra).
  split; [ exact H | exact (proj1 (proj2 (breath_cycle defaults 0 H))) ].
Defined.
